(** * ErnieDualEncoder: a shallow embedding of
      [paddlenlp/transformers/semantic_indexing/modeling.py]

    The file follows the Python module top to bottom.

    - Python exceptions are values of [exn]; a call either returns or
      raises ([result]).
    - Objects live in an explicit [world]: the attribute dictionary of the
      dual encoder under study, a heap of [ErnieEncoder] instances
      addressed by object identity, the global gradient switch, and the
      chronological log of encoder invocations.
    - Tensors are nested lists over an arbitrary scalar type; the
      arithmetic of the scalars (floating point in the framework) is an
      interface, instantiated with [Z] for the worked examples.
    - What the deep-learning framework provides (the transformer backbone,
      the checkpoint loader, the collective all-gather, accuracy and
      cross-entropy) is an interface, [Framework]. *)

From Stdlib Require Import ZArith QArith.QArith_base List String Lia.
From stdpp Require Import base gmap strings list fin_maps.

Open Scope string_scope.
Open Scope list_scope.
Open Scope Z_scope.

(** ** Python exceptions and results *)

Inductive exn : Type :=
| AssertionError (msg : string)
| AttributeError (attr : string)
| TypeError
| IndexError
| ValueError
| OverflowError
| ExternalError (tag : string).

Inductive result (A : Type) : Type :=
| Ok (a : A)
| Raise (e : exn).
Arguments Ok {A} a.
Arguments Raise {A} e.

Definition is_ok {A} (r : result A) : bool :=
  match r with Ok _ => true | Raise _ => false end.

Definition rbind {A B} (r : result A) (k : A -> result B) : result B :=
  match r with Ok a => k a | Raise e => Raise e end.

Fixpoint rmapM {A B} (f : A -> result B) (l : list A) : result (list B) :=
  match l with
  | [] => Ok []
  | a :: l' => rbind (f a) (fun b => rbind (rmapM f l') (fun bs => Ok (b :: bs)))
  end.

(** ** Scalars and tensors *)

Class Scalar (R : Type) : Type := {
  szero : R;
  sadd : R -> R -> R;
  smul : R -> R -> R
}.

#[export] Instance Z_Scalar : Scalar Z :=
  {| szero := 0; sadd := Z.add; smul := Z.mul |}.

Section Tensors.
Context {R : Type} `{Scalar R}.

(** A rank-2 tensor [n, d] is a list of [n] rows of length [d]. *)
Definition tensor1 : Type := list R.
Definition tensor2 : Type := list (list R).
Definition tensor3 : Type := list (list (list R)).

(** Reduction of one row, accumulating from the left. *)
Definition row_sum (u : tensor1) : R := fold_left sadd u szero.

(** The raw dot product of two vectors of equal length. *)
Definition dot_product (u v : tensor1) : R := row_sum (zip_with smul u v).

Definition rows_agree (t : tensor2) : bool :=
  match t with
  | [] => true
  | r :: rs => forallb (fun r' => Nat.eqb (length r') (length r)) rs
  end.

(** [x * y] on one row, with the framework's broadcasting of a
    dimension of size one. *)
Definition mul_row (u v : tensor1) : result tensor1 :=
  if Nat.eqb (length u) (length v) then Ok (zip_with smul u v)
  else match u, v with
       | [a], _ => Ok (map (smul a) v)
       | _, [b] => Ok (map (fun a => smul a b) u)
       | _, _ => Raise ValueError
       end.

Fixpoint mul_rows (a b : tensor2) : result tensor2 :=
  match a, b with
  | u :: a', v :: b' =>
      rbind (mul_row u v) (fun r =>
      rbind (mul_rows a' b') (fun rs => Ok (r :: rs)))
  | _, _ => Ok []
  end.

(** [x * y] on rank-2 tensors. *)
Definition tensor_mul (a b : tensor2) : result tensor2 :=
  if Nat.eqb (length a) (length b) then mul_rows a b
  else match a, b with
       | [u], _ => rmapM (mul_row u) b
       | _, [v] => rmapM (fun u => mul_row u v) a
       | _, _ => Raise ValueError
       end.

(** [paddle.sum(x, axis=-1)] *)
Definition paddle_sum_last (a : tensor2) : tensor1 := map row_sum a.

(** [paddle.dot(x, y)] on rank-2 tensors: the first axis is the batch;
    both shapes must be the same. *)
Fixpoint paddle_dot (a b : tensor2) : result tensor1 :=
  match a, b with
  | [], [] => Ok []
  | u :: a', v :: b' =>
      if Nat.eqb (length u) (length v)
      then rbind (paddle_dot a' b') (fun ds => Ok (dot_product u v :: ds))
      else Raise ValueError
  | _, _ => Raise ValueError
  end.

(** [paddle.concat(x=[a, b], axis=0)] and its n-ary form. *)
Definition paddle_concat (ts : list tensor2) : result tensor2 :=
  match ts with
  | [] => Raise ValueError
  | _ => if rows_agree (concat ts) then Ok (concat ts) else Raise ValueError
  end.

(** [paddle.matmul(x, y, transpose_y=True)] *)
Definition paddle_matmul_T (x y : tensor2) : result tensor2 :=
  if rows_agree (x ++ y)
  then Ok (map (fun u => map (dot_product u) y) x)
  else Raise ValueError.

(** [t[:, 0]] on a rank-3 tensor [B, L, H]. *)
Definition first_position (t : tensor3) : result tensor2 :=
  rmapM (fun s => match s with
                  | [] => Raise IndexError
                  | h :: _ => Ok h
                  end) t.
End Tensors.

(** [paddle.arange(start, end, dtype='int64')]: the bounds are Python
    integers and have to fit the element type. *)
Definition int64_min : Z := - 2 ^ 63.
Definition int64_max : Z := 2 ^ 63 - 1.
Definition fits_int64 (z : Z) : bool := (int64_min <=? z) && (z <=? int64_max).

Definition paddle_arange (start stop : Z) : result (list Z) :=
  if fits_int64 start && fits_int64 stop
  then Ok (map (fun i => start + Z.of_nat i) (seq 0 (Z.to_nat (stop - start))))
  else Raise OverflowError.

(** [paddle.reshape(x, shape=[-1, 1])] on a rank-1 tensor. *)
Definition reshape_column {A} (x : list A) : list (list A) := map (fun a => [a]) x.

Arguments tensor1 R : clear implicits.
Arguments tensor2 R : clear implicits.
Arguments tensor3 R : clear implicits.

(** ** Layers ([paddle.nn.Layer]) *)

(** A module tree.  [LayerNorm] is a leaf carrying its numerical
    epsilon; every other kind of layer carries its own parameters and
    its children. *)
#[warnings="-register-all"]
Inductive Layer (R : Type) : Type :=
| LayerNorm (_epsilon : Q) (params : list R)
| Sublayers (kind : string) (params : list R) (children : list (Layer R)).
Arguments LayerNorm {R} _epsilon params.
Arguments Sublayers {R} kind params children.

(** [Layer.apply(fn)]: [fn] is applied to every sublayer, children first,
    then to the layer itself. *)
Fixpoint Layer_apply {R} (fn : Layer R -> Layer R) (layer : Layer R) : Layer R :=
  match layer with
  | LayerNorm e p => fn (LayerNorm e p)
  | Sublayers k p cs => fn (Sublayers k p (map (Layer_apply fn) cs))
  end.

(** [Layer.sublayers(include_self=True)] *)
Fixpoint sublayers {R} (layer : Layer R) : list (Layer R) :=
  layer :: match layer with
           | LayerNorm _ _ => []
           | Sublayers _ _ cs => concat (map sublayers cs)
           end.

(** The literal [1e-5]. *)
Definition eps_1e_5 : Q := Qmake 1 100000.

(** The default dropout rate, the literal [0.1]. *)
Definition dropout_default : Q := Qmake 1 10.

(** ** class ErnieEncoder *)

Record ErnieEncoder (R : Type) : Type := mkErnieEncoder {
  ernie : Layer R;
  training : bool
}.
Arguments mkErnieEncoder {R} ernie training.
Arguments ernie {R} e.
Arguments training {R} e.

(** [ErnieEncoder.init_weights] *)
Definition init_weights {R} (layer : Layer R) : Layer R :=
  match layer with
  | LayerNorm _ p => LayerNorm eps_1e_5 p
  | Sublayers k p cs => Sublayers k p cs
  end.

(** [ErnieEncoder.__init__]: the base constructor puts the new layer in
    training mode, [ernie] becomes its only child, and [apply] runs
    [init_weights] over that child's tree and then over the encoder
    itself, which is not a [LayerNorm]. *)
Definition ErnieEncoder___init__ {R} (ernie0 : Layer R) : ErnieEncoder R :=
  mkErnieEncoder (Layer_apply init_weights ernie0) true.

(** Every [LayerNorm] below [layer] has epsilon [e]. *)
Definition layernorm_eps_all {R} (e : Q) (layer : Layer R) : Prop :=
  forall e' p, In (LayerNorm e' p) (sublayers layer) -> e' = e.

(** ** Objects, the world, and the framework *)

Definition loc : Type := positive.

Inductive value : Type :=
| VNone
| VBool (b : bool)
| VInt (z : Z)
| VEncoder (l : loc)
| VDropout (p : Q).

(** Python truth value of an attribute. *)
Definition truthy (v : value) : bool :=
  match v with
  | VNone => false
  | VBool b => b
  | VInt z => negb (Z.eqb z 0)
  | VEncoder _ => true
  | VDropout _ => true
  end.

Definition is_not_None (v : value) : bool :=
  match v with VNone => false | _ => true end.

Definition is_encoder_at (l : loc) (v : value) : bool :=
  match v with VEncoder l' => bool_decide (l' = l) | _ => false end.

(** The positional arguments of an encoder call. *)
Record enc_input : Type := mkInput {
  input_ids : list (list Z);
  token_type_ids : option (list (list Z));
  position_ids : option (list (list Z));
  attention_mask : option (list (list Z))
}.

(** One logged invocation of an encoder. *)
Record call : Type := mkCall {
  call_encoder : loc;
  call_input : enc_input;
  call_training : bool;
  call_grad : bool
}.

(** What the backbone sees besides its weights and its input: the mode
    of the layer, the gradient switch, and the number of encoder calls
    made so far (its source of randomness for dropout). *)
Record call_ctx : Type := mkCtx {
  ctx_training : bool;
  ctx_grad : bool;
  ctx_seq : nat
}.

Class Framework (R : Type) : Type := {
  (** the transformer backbone: [(sequence_output, pooled_output)] *)
  ernie_forward : Layer R -> call_ctx -> enc_input -> result (tensor3 R * tensor2 R);
  (** the backbone built and filled from a checkpoint *)
  load_pretrained : string -> result (Layer R);
  (** [paddle.distributed.all_gather]: the list it fills *)
  all_gather : tensor2 R -> result (list (tensor2 R));
  (** [paddle.metric.accuracy] *)
  metric_accuracy : tensor2 R -> list (list Z) -> result R;
  (** [F.cross_entropy] *)
  cross_entropy : tensor2 R -> list (list Z) -> result R
}.

Record world (R : Type) : Type := mkWorld {
  self_attrs : gmap string value;
  heap : gmap loc (ErnieEncoder R);
  grad_enabled : bool;
  calls : list call
}.
Arguments mkWorld {R} self_attrs heap grad_enabled calls.
Arguments self_attrs {R} w.
Arguments heap {R} w.
Arguments grad_enabled {R} w.
Arguments calls {R} w.

(** Values in the dictionaries returned by [forward]. *)
Inductive tval (R : Type) : Type :=
| T0 (x : R)
| T1 (v : tensor1 R)
| T2 (m : tensor2 R).
Arguments T0 {R} x.
Arguments T1 {R} v.
Arguments T2 {R} m.

(** ** The monad of Python calls: state and exceptions *)

Module PyM.
Section Defs.
Context {R : Type}.

Definition M (A : Type) : Type := world R -> result A * world R.

Definition ret {A} (a : A) : M A := fun w => (Ok a, w).
Definition raise {A} (e : exn) : M A := fun w => (Raise e, w).
Definition lift {A} (r : result A) : M A := fun w => (r, w).
Definition bind {A B} (m : M A) (k : A -> M B) : M B :=
  fun w => match m w with
           | (Ok a, w') => k a w'
           | (Raise e, w') => (Raise e, w')
           end.

Definition get_world : M (world R) := fun w => (Ok w, w).
Definition put_world (w' : world R) : M unit := fun _ => (Ok tt, w').
End Defs.
Arguments M R A : clear implicits.
End PyM.
Import PyM.

Declare Scope py_scope.
Delimit Scope py_scope with py.
Notation "x <- m ;; k" := (bind m (fun x => k))
  (at level 100, m at next level, right associativity) : py_scope.
Notation "m ;; k" := (bind m (fun _ => k))
  (at level 100, right associativity) : py_scope.
Open Scope py_scope.

Section Model.
Context {R : Type} `{Scalar R} `{Framework R}.
Local Abbreviation M := (PyM.M R).

(** *** Attribute access on [self] *)

Definition getattr (name : string) : M value :=
  fun w => match self_attrs w !! name with
           | Some v => (Ok v, w)
           | None => (Raise (AttributeError name), w)
           end.

Definition setattr (name : string) (v : value) : M unit :=
  fun w => (Ok tt, mkWorld (<[name := v]> (self_attrs w)) (heap w)
                           (grad_enabled w) (calls w)).

(** An attribute used as an integer operand. *)
Definition as_int (v : value) : result Z :=
  match v with
  | VInt z => Ok z
  | VBool b => Ok (if b then 1 else 0)
  | _ => Raise TypeError
  end.

(** *** [paddle.nn.Layer] on [self] *)

(** [super().__init__()] *)
Definition Layer___init__ : M unit := setattr "training" (VBool true).

(** [self.eval()]: [self] and every sublayer leave training mode.  The
    sublayers that matter are the encoders held in attributes. *)
Definition held_by (attrs : gmap string value) (l : loc) : Prop :=
  map_Exists (fun _ v => is_encoder_at l v = true) attrs.

Definition in_eval (attrs : gmap string value) (l : loc) (enc : ErnieEncoder R)
  : ErnieEncoder R :=
  if bool_decide (held_by attrs l) then mkErnieEncoder (ernie enc) false else enc.

Definition Layer_eval : M unit :=
  fun w => (Ok tt,
            mkWorld (<["training" := VBool false]> (self_attrs w))
                    (map_imap (fun l enc => Some (in_eval (self_attrs w) l enc)) (heap w))
                    (grad_enabled w) (calls w)).

(** [paddle.no_grad()]: entering saves the switch and turns it off,
    leaving restores it. *)
Definition set_grad (b : bool) : M unit :=
  fun w => (Ok tt, mkWorld (self_attrs w) (heap w) b (calls w)).

(** *** class ErnieEncoder *)

(** Modelled from the spec: [ErnieEncoder.from_pretrained] is inherited
    from the pretrained-model base class, which is not part of this
    module.  The "load pretrained" contract returns an initialized
    encoder with weights populated: the backbone comes from the
    checkpoint, and the encoder is a new object built around it by
    [ErnieEncoder.__init__]. *)
Definition from_pretrained (name : string) : M loc :=
  fun w => match load_pretrained name with
           | Raise e => (Raise e, w)
           | Ok backbone =>
               let l := fresh (dom (heap w)) in
               (Ok l, mkWorld (self_attrs w)
                              (<[l := ErnieEncoder___init__ backbone]> (heap w))
                              (grad_enabled w) (calls w))
           end.

(** The context a call of the encoder [enc] runs in. *)
Definition ctx_of (enc : ErnieEncoder R) (w : world R) : call_ctx :=
  mkCtx (training enc) (grad_enabled w) (length (calls w)).

Definition add_call (c : call) (w : world R) : world R :=
  mkWorld (self_attrs w) (heap w) (grad_enabled w) (calls w ++ [c]).

Definition log_call (c : call) : M unit := fun w => (Ok tt, add_call c w).

(** The body of [ErnieEncoder.forward]: run the backbone, keep the
    sequence output, take position 0 of every sequence. *)
Definition pooled_by (backbone : Layer R) (ctx : call_ctx) (x : enc_input)
  : result (tensor2 R) :=
  rbind (ernie_forward backbone ctx x) (fun out =>
  let sequence_output := fst out in
  (* Outputs pooled_embedding *)
  first_position sequence_output).

(** [ErnieEncoder.forward], entered through [Layer.__call__] on the
    object at [l]. *)
Definition ErnieEncoder_forward (l : loc) (x : enc_input) : M (tensor2 R) :=
  fun w => match heap w !! l with
           | None => (Raise TypeError, w)
           | Some enc =>
               (log_call (mkCall l x (training enc) (grad_enabled w)) ;;
                lift (pooled_by (ernie enc) (ctx_of enc w) x)) w
           end.

(** Calling whatever an attribute holds. *)
Definition call_value (v : value) (x : enc_input) : M (tensor2 R) :=
  match v with
  | VEncoder l => ErnieEncoder_forward l x
  | _ => raise TypeError
  end.

(** *** class ErnieDualEncoder *)

Definition ErnieDualEncoder___init__
    (query_model_name_or_path : string)
    (title_model_name_or_path : option string)
    (share_parameters : bool)
    (dropout : option Q)
    (use_cross_batch : bool) : M unit :=
  Layer___init__ ;;
  setattr "query_ernie" VNone ;;
  setattr "title_ernie" VNone ;;
  setattr "use_cross_batch" (VBool use_cross_batch) ;;
  q <- from_pretrained query_model_name_or_path ;;
  setattr "query_ernie" (VEncoder q) ;;
  (if share_parameters then
     v <- getattr "query_ernie" ;;
     setattr "title_ernie" v
   else match title_model_name_or_path with
        | Some name =>
            t <- from_pretrained name ;;
            setattr "title_ernie" (VEncoder t)
        | None => ret tt
        end) ;;
  setattr "dropout" (VDropout (match dropout with
                               | Some p => p
                               | None => dropout_default
                               end)).

Definition is_query_message : string :=
  "Please check whether your parameter for `is_query` are consistent with DualEncoder initialization.".

Definition get_pooled_embedding (x : enc_input) (is_query : bool) : M (tensor2 R) :=
  (* assert (is_query and self.query_ernie is not None)
            or (not is_query and self.title_ernie) *)
  left <- (if is_query
           then v <- getattr "query_ernie" ;; ret (is_not_None v)
           else ret false) ;;
  holds <- (if left then ret true
            else if negb is_query
                 then v <- getattr "title_ernie" ;; ret (truthy v)
                 else ret false) ;;
  if holds then
    if is_query then
      f <- getattr "query_ernie" ;;
      call_value f x
    else
      f <- getattr "title_ernie" ;;
      call_value f x
  else raise (AssertionError is_query_message).

Definition cosine_sim (query title : enc_input) : M (tensor1 R) :=
  query_cls_embedding <- get_pooled_embedding query true ;;
  title_cls_embedding <- get_pooled_embedding title false ;;
  prod <- lift (tensor_mul query_cls_embedding title_cls_embedding) ;;
  ret (paddle_sum_last prod).

Definition forward (query pos_title neg_title : enc_input) (is_prediction : bool)
  : M (gmap string (tval R)) :=
  query_cls_embedding <- get_pooled_embedding query true ;;
  pos_title_cls_embedding <- get_pooled_embedding pos_title true ;;
  neg_title_cls_embedding <- get_pooled_embedding neg_title true ;;
  all_title_cls_embedding <-
    lift (paddle_concat [pos_title_cls_embedding; neg_title_cls_embedding]) ;;
  if is_prediction then
    logits <- lift (paddle_dot query_cls_embedding pos_title_cls_embedding) ;;
    ret (<["probs" := T1 logits]>
         (<["q_rep" := T2 query_cls_embedding]>
          (<["p_rep" := T2 pos_title_cls_embedding]> ∅)))
  else
    ucb <- getattr "use_cross_batch" ;;
    all_title_cls_embedding <-
      (if truthy ucb then
         tensor_list <- lift (all_gather all_title_cls_embedding) ;;
         lift (paddle_concat tensor_list)
       else ret all_title_cls_embedding) ;;
    (* multiply *)
    logits <- lift (paddle_matmul_T query_cls_embedding all_title_cls_embedding) ;;
    let batch_size := Z.of_nat (length query_cls_embedding) in
    r1 <- getattr "rank" ;;
    r1 <- lift (as_int r1) ;;
    r2 <- getattr "rank" ;;
    r2 <- lift (as_int r2) ;;
    labels <- lift (paddle_arange (batch_size * r1 * 2) (batch_size * (r2 * 2 + 1))) ;;
    let labels := reshape_column labels in
    accuracy <- lift (metric_accuracy logits labels) ;;
    loss <- lift (cross_entropy logits labels) ;;
    ret (<["loss" := T0 loss]> (<["accuracy" := T0 accuracy]> ∅)).

(** *** [get_semantic_embedding]: a generator *)

Definition batch : Type := (list (list Z) * list (list Z))%type.

(** The generator object: created and not yet started, suspended at
    the [yield] inside [with paddle.no_grad()], or finished. *)
Inductive generator : Type :=
| GenCreated (data_loader : list batch)
| GenSuspended (saved_grad : bool) (rest : list batch)
| GenFinished.

(** Calling the generator function runs none of its body. *)
Definition get_semantic_embedding (data_loader : list batch) : generator :=
  GenCreated data_loader.

Definition input_of_batch (batch_data : batch) : enc_input :=
  let '(input_ids, token_type_ids) := batch_data in
  mkInput input_ids (Some token_type_ids) None None.

(** One turn of the [for] loop, up to the next [yield], the end of the
    loop, or an exception; the last two leave the [no_grad] block. *)
Definition loop_turn (saved : bool) (rest : list batch) (w : world R)
  : result (option (tensor2 R)) * generator * world R :=
  match rest with
  | [] => (Ok None, GenFinished, snd (set_grad saved w))
  | batch_data :: rest' =>
      match get_pooled_embedding (input_of_batch batch_data) true w with
      | (Ok text_embeddings, w') =>
          (Ok (Some text_embeddings), GenSuspended saved rest', w')
      | (Raise e, w') => (Raise e, GenFinished, snd (set_grad saved w'))
      end
  end.

(** [next(gen)]; [Ok None] is [StopIteration]. *)
Definition gen_next (g : generator) (w : world R)
  : result (option (tensor2 R)) * generator * world R :=
  match g with
  | GenCreated data_loader =>
      let w1 := snd (Layer_eval w) in
      let saved := grad_enabled w1 in
      let w2 := snd (set_grad false w1) in
      loop_turn saved data_loader w2
  | GenSuspended saved rest => loop_turn saved rest w
  | GenFinished => (Ok None, GenFinished, w)
  end.

(** A consumer that asks for at most [n] items, one after the other. *)
Fixpoint take_items (n : nat) (g : generator) (w : world R)
  : result (list (tensor2 R)) * generator * world R :=
  match n with
  | O => (Ok [], g, w)
  | S n' =>
      match gen_next g w with
      | (Ok (Some e), g', w') =>
          match take_items n' g' w' with
          | (Ok es, g'', w'') => (Ok (e :: es), g'', w'')
          | (Raise ex, g'', w'') => (Raise ex, g'', w'')
          end
      | (Ok None, g', w') => (Ok [], g', w')
      | (Raise ex, g', w') => (Raise ex, g', w')
      end
  end.
End Model.

(** ** A small concrete framework, for worked examples

    Scalars are integers.  The backbone knows four token ids; the hidden
    vector of a token is its table entry scaled by the first parameter of
    the root layer.  There are two processes holding the same batch, so
    [all_gather] returns the local tensor twice. *)
Module Toy.
Definition table (t : Z) : result (list Z) :=
  match t with
  | 0 => Ok [0; 0; 0]
  | 1 => Ok [1; 0; 0]
  | 2 => Ok [0; 1; 0]
  | 3 => Ok [1; 1; 0]
  | _ => Raise IndexError
  end.

Definition scale (backbone : Layer Z) : Z :=
  match backbone with
  | Sublayers _ (s :: _) _ => s
  | _ => 1
  end.

Definition run (backbone : Layer Z) (ctx : call_ctx) (x : enc_input)
  : result (tensor3 Z * tensor2 Z) :=
  rbind (rmapM (rmapM (fun t => rbind (table t) (fun v =>
                                Ok (map (Z.mul (scale backbone)) v))))
               (input_ids x))
        (fun so => Ok (so, [])).

Definition query_backbone : Layer Z :=
  Sublayers "ErnieModel" [1]
    [Sublayers "embeddings" [] [LayerNorm (Qmake 1 1000000000000) []];
     LayerNorm (Qmake 1 1000000000000) []].

Definition title_backbone : Layer Z :=
  Sublayers "ErnieModel" [2] [LayerNorm (Qmake 1 1000000000000) []].

Definition checkpoint (name : string) : result (Layer Z) :=
  if String.eqb name "ernie-base-cn-query-encoder" then Ok query_backbone
  else if String.eqb name "ernie-base-cn-title-encoder" then Ok title_backbone
  else Raise (ExternalError "unknown model").

#[global] Instance framework : Framework Z := {|
  ernie_forward := run;
  load_pretrained := checkpoint;
  all_gather := fun t => Ok [t; t];
  metric_accuracy := fun logits _ => Ok (Z.of_nat (length logits));
  cross_entropy := fun logits _ => Ok 0
|}.

(** A new object before its constructor runs. *)
Definition blank : world Z := mkWorld ∅ ∅ true [].

(** [ErnieDualEncoder("ernie-base-cn-query-encoder",
                      "ernie-base-cn-title-encoder")] *)
Definition two_towers : world Z :=
  snd (ErnieDualEncoder___init__ "ernie-base-cn-query-encoder"
         (Some "ernie-base-cn-title-encoder") false None false blank).

(** [ErnieDualEncoder("ernie-base-cn-query-encoder")] *)
Definition query_only : world Z :=
  snd (ErnieDualEncoder___init__ "ernie-base-cn-query-encoder"
         None false None false blank).

(** [ErnieDualEncoder("ernie-base-cn-query-encoder", share_parameters=True)] *)
Definition shared : world Z :=
  snd (ErnieDualEncoder___init__ "ernie-base-cn-query-encoder"
         None true None false blank).

Definition ids (rows : list (list Z)) : enc_input := mkInput rows None None None.

(** The two-checkpoint model with cross-batch negatives, on the second
    of the two processes: the training driver has set [rank] to 1. *)
Definition cross_batch_rank1 : world Z :=
  snd (setattr "rank" (VInt 1)
         (snd (ErnieDualEncoder___init__ "ernie-base-cn-query-encoder"
                 (Some "ernie-base-cn-title-encoder") false None true blank))).

(** The encoders the constructor builds from the two checkpoints. *)
Definition query_encoder : ErnieEncoder Z := ErnieEncoder___init__ query_backbone.
Definition title_encoder : ErnieEncoder Z := ErnieEncoder___init__ title_backbone.
End Toy.

(** * Properties *)

(** ** Tensor operations *)

Section TensorFacts.
Context {R : Type} `{Scalar R}.

(** Two batches of vectors with the same shape. *)
Definition same_shape (a b : tensor2 R) : Prop :=
  Forall2 (fun u v => length u = length v) a b.

Lemma mul_row_same (u v : tensor1 R) :
  length u = length v -> mul_row u v = Ok (zip_with smul u v).
Proof.
  intros E. unfold mul_row. rewrite E, Nat.eqb_refl. reflexivity.
Qed.

Lemma mul_rows_same (a b : tensor2 R) :
  same_shape a b -> mul_rows a b = Ok (zip_with (zip_with smul) a b).
Proof.
  induction 1 as [|u v a b E _ IH]; simpl; [reflexivity|].
  rewrite (mul_row_same _ _ E), IH. reflexivity.
Qed.

Lemma tensor_mul_same (a b : tensor2 R) :
  same_shape a b -> tensor_mul a b = Ok (zip_with (zip_with smul) a b).
Proof.
  intros S. unfold tensor_mul.
  rewrite (Forall2_length _ _ _ S), Nat.eqb_refl.
  apply mul_rows_same, S.
Qed.

Lemma sum_of_products (a b : tensor2 R) :
  paddle_sum_last (zip_with (zip_with smul) a b) = zip_with dot_product a b.
Proof.
  unfold paddle_sum_last.
  revert b. induction a as [|u a IH]; intros [|v b]; simpl; try reflexivity.
  f_equal. apply IH.
Qed.

Lemma paddle_dot_same (a b : tensor2 R) :
  same_shape a b -> paddle_dot a b = Ok (zip_with dot_product a b).
Proof.
  induction 1 as [|u v a b E _ IH]; simpl; [reflexivity|].
  rewrite E, Nat.eqb_refl, IH. reflexivity.
Qed.

Lemma paddle_concat_pair (a b : tensor2 R) :
  rows_agree (a ++ b) = true -> paddle_concat [a; b] = Ok (a ++ b).
Proof.
  intros E. unfold paddle_concat. simpl. rewrite app_nil_r, E. reflexivity.
Qed.

Lemma paddle_concat_pair_inv (a b c : tensor2 R) :
  paddle_concat [a; b] = Ok c -> c = a ++ b /\ rows_agree (a ++ b) = true.
Proof.
  unfold paddle_concat. simpl. rewrite app_nil_r.
  destruct (rows_agree (a ++ b)); [|discriminate].
  intros [= <-]. split; reflexivity.
Qed.
End TensorFacts.

(** ** The label range *)

Lemma paddle_arange_ok (start stop : Z) :
  fits_int64 start = true -> fits_int64 stop = true ->
  paddle_arange start stop
  = Ok (map (fun i => start + Z.of_nat i) (seq 0 (Z.to_nat (stop - start)))).
Proof.
  intros A B. unfold paddle_arange. rewrite A, B. reflexivity.
Qed.

(** The labels built by the training branch for local batch size [B] on
    rank [r], as a column. *)
Definition label_column (B : nat) (r : Z) : list (list Z) :=
  reshape_column (map (fun i => Z.of_nat B * r * 2 + Z.of_nat i) (seq 0 B)).

Lemma arange_labels (B : nat) (r : Z) :
  fits_int64 (Z.of_nat B * r * 2) = true ->
  fits_int64 (Z.of_nat B * (r * 2 + 1)) = true ->
  rbind (paddle_arange (Z.of_nat B * r * 2) (Z.of_nat B * (r * 2 + 1)))
        (fun labels => Ok (reshape_column labels))
  = Ok (label_column B r).
Proof.
  intros A C. rewrite (paddle_arange_ok _ _ A C). simpl. unfold label_column.
  replace (Z.of_nat B * (r * 2 + 1) - Z.of_nat B * r * 2) with (Z.of_nat B) by lia.
  rewrite Nat2Z.id. reflexivity.
Qed.

Lemma label_column_length (B : nat) (r : Z) : length (label_column B r) = B.
Proof.
  unfold label_column, reshape_column. rewrite !length_map. apply length_seq.
Qed.

Lemma label_column_lookup (B : nat) (r : Z) (i : nat) :
  (i < B)%nat -> label_column B r !! i = Some [2 * Z.of_nat B * r + Z.of_nat i].
Proof.
  intros Hi. unfold label_column, reshape_column.
  rewrite !list_lookup_fmap, lookup_seq_lt by exact Hi. simpl.
  do 2 f_equal. lia.
Qed.

Lemma label_column_rank0 (B : nat) :
  label_column B 0 = map (fun i => [Z.of_nat i]) (seq 0 B).
Proof.
  unfold label_column, reshape_column. rewrite map_map.
  apply map_ext. intros i. f_equal. lia.
Qed.

(** ** The methods of the dual encoder *)

Section ModelFacts.
Context {R : Type} `{Scalar R} `{Framework R}.
Implicit Types (w : world R) (x : enc_input) (l : loc) (enc : ErnieEncoder R).

(** [w'] differs from [w] by logged encoder calls only. *)
Definition only_logs (w w' : world R) : Prop :=
  self_attrs w' = self_attrs w /\ heap w' = heap w /\
  grad_enabled w' = grad_enabled w /\ exists cs, calls w' = calls w ++ cs.

Lemma only_logs_refl w : only_logs w w.
Proof. repeat split. exists []. symmetry. apply app_nil_r. Qed.

Lemma only_logs_trans w1 w2 w3 :
  only_logs w1 w2 -> only_logs w2 w3 -> only_logs w1 w3.
Proof.
  intros (A1 & B1 & C1 & cs1 & D1) (A2 & B2 & C2 & cs2 & D2).
  repeat split; try congruence.
  exists (cs1 ++ cs2). rewrite D2, D1. symmetry. apply app_assoc.
Qed.

Lemma only_logs_add_call c w : only_logs w (add_call c w).
Proof. repeat split. exists [c]. reflexivity. Qed.

Lemma bind_lift {A B} (r : result A) (k : A -> PyM.M R B) w :
  bind (lift r) k w = match r with Ok a => k a w | Raise e => (Raise e, w) end.
Proof. unfold bind, lift. destruct r; reflexivity. Qed.

Lemma ErnieEncoder_forward_at l enc x w :
  heap w !! l = Some enc ->
  ErnieEncoder_forward l x w
  = (pooled_by (ernie enc) (ctx_of enc w) x,
     add_call (mkCall l x (training enc) (grad_enabled w)) w).
Proof.
  intros Hl. unfold ErnieEncoder_forward. rewrite Hl. reflexivity.
Qed.

Lemma ErnieEncoder_forward_logs l x w :
  only_logs w (snd (ErnieEncoder_forward l x w)).
Proof.
  destruct (heap w !! l) as [enc|] eqn:Hl.
  - rewrite (ErnieEncoder_forward_at _ _ _ _ Hl). apply only_logs_add_call.
  - unfold ErnieEncoder_forward. rewrite Hl. apply only_logs_refl.
Qed.

Lemma call_value_logs v x w : only_logs w (snd (call_value v x w)).
Proof.
  destruct v; simpl; try apply only_logs_refl. apply ErnieEncoder_forward_logs.
Qed.

(** With a query encoder in place, the query side is one call of it. *)
Lemma get_pooled_embedding_query l enc x w :
  self_attrs w !! "query_ernie" = Some (VEncoder l) ->
  heap w !! l = Some enc ->
  get_pooled_embedding x true w
  = (pooled_by (ernie enc) (ctx_of enc w) x,
     add_call (mkCall l x (training enc) (grad_enabled w)) w).
Proof.
  intros Hq Hl. unfold get_pooled_embedding, bind, getattr, ret.
  rewrite Hq. simpl. rewrite Hq. simpl.
  apply ErnieEncoder_forward_at, Hl.
Qed.

(** With a title encoder in place, the title side is one call of it. *)
Lemma get_pooled_embedding_title l enc x w :
  self_attrs w !! "title_ernie" = Some (VEncoder l) ->
  heap w !! l = Some enc ->
  get_pooled_embedding x false w
  = (pooled_by (ernie enc) (ctx_of enc w) x,
     add_call (mkCall l x (training enc) (grad_enabled w)) w).
Proof.
  intros Ht Hl. unfold get_pooled_embedding, bind, getattr, ret.
  simpl. rewrite Ht. simpl. rewrite Ht. simpl.
  apply ErnieEncoder_forward_at, Hl.
Qed.

Lemma get_pooled_embedding_logs x b w :
  only_logs w (snd (get_pooled_embedding x b w)).
Proof.
  unfold get_pooled_embedding, bind, getattr, ret, raise.
  destruct b; simpl.
  - destruct (self_attrs w !! "query_ernie") as [v|] eqn:E; simpl;
      [|apply only_logs_refl].
    destruct (is_not_None v); simpl; [|apply only_logs_refl].
    rewrite E. apply call_value_logs.
  - destruct (self_attrs w !! "title_ernie") as [v|] eqn:E; simpl;
      [|apply only_logs_refl].
    destruct (truthy v); simpl; [|apply only_logs_refl].
    rewrite E. apply call_value_logs.
Qed.

(** The assertion of [get_pooled_embedding] on an absent side. *)
Lemma get_pooled_embedding_absent x (is_query : bool) w :
  (is_query = true /\ self_attrs w !! "query_ernie" = Some VNone) \/
  (is_query = false /\ self_attrs w !! "title_ernie" = Some VNone) ->
  get_pooled_embedding x is_query w = (Raise (AssertionError is_query_message), w).
Proof.
  intros [[-> E]|[-> E]];
    unfold get_pooled_embedding, bind, getattr, ret, raise; simpl;
    rewrite E; reflexivity.
Qed.

(** *** What the constructor leaves behind *)

Lemma fresh_after_insert (h : gmap loc (ErnieEncoder R)) enc :
  fresh (dom (<[fresh (dom h) := enc]> h)) <> fresh (dom h).
Proof.
  intros E.
  pose proof (is_fresh (dom (<[fresh (dom h) := enc]> h))) as F.
  rewrite E in F. apply F. rewrite dom_insert_L. set_solver.
Qed.

Lemma ErnieDualEncoder___init___inv q t (share : bool) d (ucb : bool) w0 w :
  ErnieDualEncoder___init__ q t share d ucb w0 = (Ok tt, w) ->
  exists bq,
    load_pretrained q = Ok bq /\
    self_attrs w !! "query_ernie" = Some (VEncoder (fresh (dom (heap w0)))) /\
    heap w !! fresh (dom (heap w0)) = Some (ErnieEncoder___init__ bq) /\
    self_attrs w !! "use_cross_batch" = Some (VBool ucb) /\
    self_attrs w !! "rank" = self_attrs w0 !! "rank" /\
    grad_enabled w = grad_enabled w0 /\ calls w = calls w0 /\
    ((share = true /\
      self_attrs w !! "title_ernie" = Some (VEncoder (fresh (dom (heap w0))))) \/
     (share = false /\ t = None /\
      self_attrs w !! "title_ernie" = Some VNone) \/
     (share = false /\ exists tn bt lt,
        t = Some tn /\ load_pretrained tn = Ok bt /\
        lt <> fresh (dom (heap w0)) /\
        self_attrs w !! "title_ernie" = Some (VEncoder lt) /\
        heap w !! lt = Some (ErnieEncoder___init__ bt))).
Proof.
  intros Hinit.
  unfold ErnieDualEncoder___init__, Layer___init__, from_pretrained,
    bind, setattr, getattr, ret in Hinit.
  cbn in Hinit.
  destruct (load_pretrained q) as [bq|e] eqn:Lq; [|discriminate Hinit].
  cbn in Hinit. exists bq. split; [reflexivity|].
  pose proof (fresh_after_insert (heap w0) (ErnieEncoder___init__ bq)) as Ne.
  destruct share; cbn in Hinit.
  - rewrite lookup_insert_eq in Hinit. cbn in Hinit.
    injection Hinit as <-. cbn.
    repeat split; simplify_map_eq; auto.
  - destruct t as [tn|]; cbn in Hinit.
    + destruct (load_pretrained tn) as [bt|e] eqn:Lt; [|discriminate Hinit].
      cbn in Hinit. injection Hinit as <-. cbn.
      repeat split; simplify_map_eq; auto.
      right. right. split; [reflexivity|].
      eexists tn, bt, _. repeat split; simplify_map_eq; eauto.
    + injection Hinit as <-. cbn.
      repeat split; simplify_map_eq; auto.
Qed.

(** *** The three encoder calls that open [forward] *)

Definition call_at l enc x w : call :=
  mkCall l x (training enc) (grad_enabled w).

Definition after_call l enc x w : world R := add_call (call_at l enc x w) w.

Lemma bind_query_side {B} l enc x (k : tensor2 R -> PyM.M R B) w :
  self_attrs w !! "query_ernie" = Some (VEncoder l) ->
  heap w !! l = Some enc ->
  bind (get_pooled_embedding x true) k w
  = match pooled_by (ernie enc) (ctx_of enc w) x with
    | Ok e => k e (after_call l enc x w)
    | Raise e => (Raise e, after_call l enc x w)
    end.
Proof.
  intros Hq Hl. unfold bind.
  rewrite (get_pooled_embedding_query _ _ _ _ Hq Hl). reflexivity.
Qed.

Lemma bind_title_side {B} l enc x (k : tensor2 R -> PyM.M R B) w :
  self_attrs w !! "title_ernie" = Some (VEncoder l) ->
  heap w !! l = Some enc ->
  bind (get_pooled_embedding x false) k w
  = match pooled_by (ernie enc) (ctx_of enc w) x with
    | Ok e => k e (after_call l enc x w)
    | Raise e => (Raise e, after_call l enc x w)
    end.
Proof.
  intros Ht Hl. unfold bind.
  rewrite (get_pooled_embedding_title _ _ _ _ Ht Hl). reflexivity.
Qed.

(** The world after the three calls, and the contexts they ran in. *)
Definition after_three l enc query pos_title neg_title w : world R :=
  after_call l enc neg_title (after_call l enc pos_title (after_call l enc query w)).

Definition ctx_query enc w : call_ctx := ctx_of enc w.
Definition ctx_pos l enc query w : call_ctx :=
  ctx_of enc (after_call l enc query w).
Definition ctx_neg l enc query pos_title w : call_ctx :=
  ctx_of enc (after_call l enc pos_title (after_call l enc query w)).

Lemma calls_after_three l enc query pos_title neg_title w :
  calls (after_three l enc query pos_title neg_title w)
  = calls w ++ [call_at l enc query w; call_at l enc pos_title w;
                call_at l enc neg_title w].
Proof.
  unfold after_three, after_call, add_call. simpl.
  rewrite <- !app_assoc. reflexivity.
Qed.

(** [forward] in prediction mode, when every step before the branch
    goes through. *)
Lemma forward_prediction_run l enc query pos_title neg_title w qe pe ne :
  self_attrs w !! "query_ernie" = Some (VEncoder l) ->
  heap w !! l = Some enc ->
  pooled_by (ernie enc) (ctx_query enc w) query = Ok qe ->
  pooled_by (ernie enc) (ctx_pos l enc query w) pos_title = Ok pe ->
  pooled_by (ernie enc) (ctx_neg l enc query pos_title w) neg_title = Ok ne ->
  rows_agree (pe ++ ne) = true ->
  forward query pos_title neg_title true w
  = (rbind (paddle_dot qe pe) (fun logits =>
       Ok (<["probs" := T1 logits]>
           (<["q_rep" := T2 qe]> (<["p_rep" := T2 pe]> ∅)))),
     after_three l enc query pos_title neg_title w).
Proof.
  intros Hq Hl Eq Ep En Hc. unfold forward.
  rewrite (bind_query_side l enc) by assumption.
  unfold ctx_query in Eq. rewrite Eq.
  rewrite (bind_query_side l enc) by assumption.
  unfold ctx_pos in Ep. rewrite Ep.
  rewrite (bind_query_side l enc) by assumption.
  unfold ctx_neg in En. rewrite En.
  rewrite bind_lift, (paddle_concat_pair _ _ Hc).
  rewrite bind_lift. unfold after_three.
  destruct (paddle_dot qe pe); reflexivity.
Qed.

(** The candidate set of the training branch. *)
Definition candidates (ucb : value) (local : tensor2 R) : result (tensor2 R) :=
  if truthy ucb then rbind (all_gather local) paddle_concat else Ok local.

(** What the training branch does once the scores are there: it
    reads [self.rank], builds the labels, and asks the framework for
    accuracy and loss. *)
Definition training_outputs (logits : tensor2 R) (batch_size : nat)
    (rank : option value) : result (gmap string (tval R)) :=
  match rank with
  | None => Raise (AttributeError "rank")
  | Some v =>
      rbind (as_int v) (fun r =>
      rbind (paddle_arange (Z.of_nat batch_size * r * 2)
                           (Z.of_nat batch_size * (r * 2 + 1))) (fun labels =>
      let labels := reshape_column labels in
      rbind (metric_accuracy logits labels) (fun accuracy =>
      rbind (cross_entropy logits labels) (fun loss =>
      Ok (<["loss" := T0 loss]> (<["accuracy" := T0 accuracy]> ∅))))))
  end.

(** [forward] in training mode, when every step before the labels
    goes through. *)
Lemma forward_training_run l enc query pos_title neg_title w qe pe ne ucb cands logits :
  self_attrs w !! "query_ernie" = Some (VEncoder l) ->
  heap w !! l = Some enc ->
  pooled_by (ernie enc) (ctx_query enc w) query = Ok qe ->
  pooled_by (ernie enc) (ctx_pos l enc query w) pos_title = Ok pe ->
  pooled_by (ernie enc) (ctx_neg l enc query pos_title w) neg_title = Ok ne ->
  rows_agree (pe ++ ne) = true ->
  self_attrs w !! "use_cross_batch" = Some ucb ->
  candidates ucb (pe ++ ne) = Ok cands ->
  paddle_matmul_T qe cands = Ok logits ->
  forward query pos_title neg_title false w
  = (training_outputs logits (length qe) (self_attrs w !! "rank"),
     after_three l enc query pos_title neg_title w).
Proof.
  intros Hq Hl Eq Ep En Hc Hu Hcands Hm. unfold forward.
  rewrite (bind_query_side l enc) by assumption.
  unfold ctx_query in Eq. rewrite Eq.
  rewrite (bind_query_side l enc) by assumption.
  unfold ctx_pos in Ep. rewrite Ep.
  rewrite (bind_query_side l enc) by assumption.
  unfold ctx_neg in En. rewrite En.
  rewrite bind_lift, (paddle_concat_pair _ _ Hc).
  fold (after_three l enc query pos_title neg_title w).
  set (w3 := after_three l enc query pos_title neg_title w).
  assert (A : self_attrs w3 = self_attrs w) by reflexivity.
  unfold bind at 1. unfold getattr at 1. rewrite A, Hu.
  unfold candidates in Hcands.
  assert (G : forall B (k : tensor2 R -> PyM.M R B),
             bind (if truthy ucb
                   then bind (lift (all_gather (pe ++ ne)))
                          (fun tensor_list => lift (paddle_concat tensor_list))
                   else ret (pe ++ ne)) k w3 = k cands w3).
  { intros B k. unfold bind, lift, ret. destruct (truthy ucb).
    - destruct (all_gather (pe ++ ne)) as [tl|]; [|discriminate Hcands].
      simpl in Hcands. rewrite Hcands. reflexivity.
    - injection Hcands as <-. reflexivity. }
  rewrite G. rewrite bind_lift, Hm.
  unfold training_outputs, bind, getattr, lift, ret. rewrite A.
  destruct (self_attrs w !! "rank") as [v|] eqn:Er; [|reflexivity].
  simpl. destruct (as_int v) as [r|] eqn:Ei; [|reflexivity].
  simpl. rewrite Er. simpl. rewrite Ei. simpl.
  destruct (paddle_arange (Z.of_nat (length qe) * r * 2)
                          (Z.of_nat (length qe) * (r * 2 + 1)))
    as [labels|]; [|reflexivity]. simpl.
  destruct (metric_accuracy logits (reshape_column labels)) as [acc|];
    [|reflexivity]. simpl.
  destruct (cross_entropy logits (reshape_column labels)) as [loss|];
    reflexivity.
Qed.

(** *** Frames: what the methods leave untouched *)

Ltac pooled_step x b w w' L :=
  let E := fresh "E" in
  destruct (get_pooled_embedding x b w) as [[?|?] w'] eqn:E;
  pose proof (get_pooled_embedding_logs x b w) as L;
  rewrite E in L; simpl in L.

Ltac split_matches :=
  repeat match goal with
         | |- context [match ?s with _ => _ end] =>
             lazymatch s with
             | context [match _ with _ => _ end] => fail
             | _ => destruct s; simpl
             end
         end.

Lemma cosine_sim_logs query title w :
  only_logs w (snd (cosine_sim query title w)).
Proof.
  unfold cosine_sim, bind.
  pooled_step query true w w1 L1; [|exact L1].
  pooled_step title false w1 w2 L2;
    [|exact (only_logs_trans _ _ _ L1 L2)].
  unfold lift, ret. split_matches; exact (only_logs_trans _ _ _ L1 L2).
Qed.

Lemma forward_logs query pos_title neg_title (is_prediction : bool) w :
  only_logs w (snd (forward query pos_title neg_title is_prediction w)).
Proof.
  unfold forward, bind.
  pooled_step query true w w1 L1; [|exact L1].
  pooled_step pos_title true w1 w2 L2;
    [|exact (only_logs_trans _ _ _ L1 L2)].
  pose proof (only_logs_trans _ _ _ L1 L2) as L12.
  pooled_step neg_title true w2 w3 L3;
    [|exact (only_logs_trans _ _ _ L12 L3)].
  pose proof (only_logs_trans _ _ _ L12 L3) as L.
  unfold lift, ret, getattr. split_matches; exact L.
Qed.

(** Without a [rank] attribute the training branch cannot get past
    the labels, whatever happens before. *)
Lemma forward_training_without_rank query pos_title neg_title w :
  self_attrs w !! "rank" = None ->
  is_ok (fst (forward query pos_title neg_title false w)) = false.
Proof.
  intros Hr. unfold forward, bind.
  pooled_step query true w w1 L1; [|reflexivity].
  pooled_step pos_title true w1 w2 L2; [|reflexivity].
  pooled_step neg_title true w2 w3 L3; [|reflexivity].
  assert (A : self_attrs w3 !! "rank" = None).
  { destruct L1 as [A1 _], L2 as [A2 _], L3 as [A3 _]. congruence. }
  unfold lift, ret, getattr. simpl.
  repeat (rewrite ?A; simpl;
          match goal with
          | |- context [match ?s with _ => _ end] =>
              lazymatch s with
              | context [match _ with _ => _ end] => fail
              | _ => destruct s; simpl
              end
          end);
    rewrite ?A; reflexivity.
Qed.

(** *** The generator of [get_semantic_embedding] *)

Lemma Layer_eval_attr name w :
  name <> "training" ->
  self_attrs (snd (Layer_eval w)) !! name = self_attrs w !! name.
Proof. intros Ne. simpl. apply lookup_insert_ne. congruence. Qed.

Lemma Layer_eval_held name l enc w :
  self_attrs w !! name = Some (VEncoder l) ->
  heap w !! l = Some enc ->
  heap (snd (Layer_eval w)) !! l = Some (mkErnieEncoder (ernie enc) false).
Proof.
  intros Ha Hl. simpl. rewrite map_lookup_imap, Hl. simpl.
  unfold in_eval. rewrite bool_decide_eq_true_2; [reflexivity|].
  exists name, (VEncoder l). split; [exact Ha|].
  simpl. apply bool_decide_eq_true_2. reflexivity.
Qed.

(** The world while the generator is suspended in its loop: the query
    encoder at [l] is in evaluation mode and gradients are off. *)
Definition serving l (backbone : Layer R) w : Prop :=
  self_attrs w !! "query_ernie" = Some (VEncoder l) /\
  heap w !! l = Some (mkErnieEncoder backbone false) /\
  grad_enabled w = false.

(** The call the loop makes for one batch. *)
Definition served l (b : batch) : call := mkCall l (input_of_batch b) false false.

Definition add_calls (cs : list call) w : world R :=
  mkWorld (self_attrs w) (heap w) (grad_enabled w) (calls w ++ cs).

(** What the backbone returns for each batch of the corpus, the first
    of them being encoder call number [n0]. *)
Fixpoint corpus_runs (backbone : Layer R) (n0 : nat) (data_loader : list batch)
  : list (result (tensor2 R)) :=
  match data_loader with
  | [] => []
  | b :: rest =>
      pooled_by backbone (mkCtx false false n0) (input_of_batch b)
      :: corpus_runs backbone (S n0) rest
  end.

Lemma add_calls_nil w : add_calls [] w = w.
Proof. destruct w. unfold add_calls. simpl. rewrite app_nil_r. reflexivity. Qed.

Lemma add_calls_cons c cs w : add_calls cs (add_call c w) = add_calls (c :: cs) w.
Proof. unfold add_calls, add_call. simpl. rewrite <- app_assoc. reflexivity. Qed.

Lemma serving_add_call l backbone c w :
  serving l backbone w -> serving l backbone (add_call c w).
Proof. intros Sv. exact Sv. Qed.

Lemma loop_turn_serving l backbone saved b rest w :
  serving l backbone w ->
  loop_turn saved (b :: rest) w
  = match pooled_by backbone (mkCtx false false (length (calls w))) (input_of_batch b) with
    | Ok e => (Ok (Some e), GenSuspended saved rest, add_call (served l b) w)
    | Raise ex => (Raise ex, GenFinished,
                   snd (set_grad saved (add_call (served l b) w)))
    end.
Proof.
  intros (Hq & Hl & Hg). unfold loop_turn.
  rewrite (get_pooled_embedding_query _ _ _ _ Hq Hl).
  unfold ctx_of, served. simpl. rewrite Hg.
  destruct (pooled_by _ _ _); reflexivity.
Qed.

Lemma take_items_suspended l backbone rest :
  forall n saved w es,
    serving l backbone w ->
    corpus_runs backbone (length (calls w)) rest = map Ok es ->
    take_items n (GenSuspended saved rest) w
    = if (n <=? length rest)%nat
      then (Ok (take n es), GenSuspended saved (drop n rest),
            add_calls (map (served l) (take n rest)) w)
      else (Ok es, GenFinished,
            snd (set_grad saved (add_calls (map (served l) rest) w))).
Proof.
  induction rest as [|b rest IH]; intros n saved w es Sv Hruns.
  - destruct es; [|discriminate Hruns].
    destruct n; simpl; unfold add_calls; simpl; rewrite app_nil_r;
      destruct w; reflexivity.
  - destruct es as [|e es]; [discriminate Hruns|].
    simpl in Hruns. injection Hruns as He Hrest.
    destruct n as [|n].
    { simpl. unfold add_calls. simpl. rewrite app_nil_r. destruct w. reflexivity. }
    cbn [take_items gen_next]. rewrite (loop_turn_serving l backbone) by exact Sv.
    rewrite He.
    assert (Hlen : length (calls (add_call (served l b) w)) = S (length (calls w))).
    { simpl. rewrite length_app. simpl. lia. }
    rewrite (IH n saved (add_call (served l b) w) es
               (serving_add_call _ _ _ _ Sv)) by (rewrite Hlen; exact Hrest).
    change (S n <=? length (b :: rest))%nat with (n <=? length rest)%nat.
    destruct (n <=? length rest)%nat; rewrite add_calls_cons; reflexivity.
Qed.

(** The first [next] runs [eval()], enters [no_grad] and then behaves
    like a resumed loop. *)
Definition started w : world R := snd (set_grad false (snd (Layer_eval w))).

Lemma take_items_created n data_loader w :
  take_items (S n) (GenCreated data_loader) w
  = take_items (S n) (GenSuspended (grad_enabled w) data_loader) (started w).
Proof. reflexivity. Qed.

Lemma started_serving l enc w :
  self_attrs w !! "query_ernie" = Some (VEncoder l) ->
  heap w !! l = Some enc ->
  serving l (ernie enc) (started w).
Proof.
  intros Hq Hl. unfold serving, started. repeat split.
  - change (self_attrs (snd (Layer_eval w)) !! "query_ernie" = Some (VEncoder l)).
    rewrite Layer_eval_attr by discriminate. exact Hq.
  - exact (Layer_eval_held _ _ _ _ Hq Hl).
Qed.

Lemma corpus_runs_length backbone n0 data_loader es :
  corpus_runs backbone n0 data_loader = map Ok es -> length es = length data_loader.
Proof.
  intros E. apply (f_equal (@length _)) in E. rewrite length_map in E.
  rewrite <- E. clear E. revert n0.
  induction data_loader as [|b rest IH]; intros n0; simpl; [reflexivity|].
  f_equal. apply IH.
Qed.

(** [next] never touches an attribute other than [training]. *)
Lemma gen_next_attr name g w :
  name <> "training" ->
  self_attrs (snd (gen_next g w)) !! name = self_attrs w !! name.
Proof.
  intros Ne.
  assert (T : forall saved rest v,
             self_attrs (snd (loop_turn saved rest v)) = self_attrs v).
  { intros saved [|b rest] v; simpl; [reflexivity|].
    pose proof (get_pooled_embedding_logs (input_of_batch b) true v) as L.
    destruct (get_pooled_embedding (input_of_batch b) true v) as [[e|ex] v'];
      simpl in *; apply L. }
  destruct g as [dl|saved rest|]; simpl; [|rewrite T|]; try reflexivity.
  rewrite T. simpl. apply lookup_insert_ne. congruence.
Qed.

(** Whatever the mode, once the query and the positive title are
    encoded, the negative title is encoded too, and nothing else is
    called. *)
Lemma forward_calls l enc query pos_title neg_title (is_prediction : bool) w qe pe :
  self_attrs w !! "query_ernie" = Some (VEncoder l) ->
  heap w !! l = Some enc ->
  pooled_by (ernie enc) (ctx_query enc w) query = Ok qe ->
  pooled_by (ernie enc) (ctx_pos l enc query w) pos_title = Ok pe ->
  calls (snd (forward query pos_title neg_title is_prediction w))
  = calls w ++ [call_at l enc query w; call_at l enc pos_title w;
                call_at l enc neg_title w].
Proof.
  intros Hq Hl Eq Ep. unfold forward.
  rewrite (bind_query_side l enc) by assumption.
  unfold ctx_query in Eq. rewrite Eq.
  rewrite (bind_query_side l enc) by assumption.
  unfold ctx_pos in Ep. rewrite Ep.
  rewrite (bind_query_side l enc) by assumption.
  fold (after_three l enc query pos_title neg_title w).
  rewrite <- calls_after_three.
  set (w3 := after_three l enc query pos_title neg_title w).
  destruct (pooled_by _ _ neg_title) as [ne|ex]; [|reflexivity].
  unfold bind, lift, ret, getattr. simpl.
  split_matches; reflexivity.
Qed.

(** In prediction mode a failure of the negative-title call, or of the
    concatenation, is the failure of [forward]. *)
Lemma forward_prediction_negative_fails l enc query pos_title neg_title w qe pe :
  self_attrs w !! "query_ernie" = Some (VEncoder l) ->
  heap w !! l = Some enc ->
  pooled_by (ernie enc) (ctx_query enc w) query = Ok qe ->
  pooled_by (ernie enc) (ctx_pos l enc query w) pos_title = Ok pe ->
  fst (forward query pos_title neg_title true w)
  = match pooled_by (ernie enc) (ctx_neg l enc query pos_title w) neg_title with
    | Raise ex => Raise ex
    | Ok ne =>
        if rows_agree (pe ++ ne)
        then rbind (paddle_dot qe pe) (fun logits =>
               Ok (<["probs" := T1 logits]>
                   (<["q_rep" := T2 qe]> (<["p_rep" := T2 pe]> ∅))))
        else Raise ValueError
    end.
Proof.
  intros Hq Hl Eq Ep.
  destruct (pooled_by (ernie enc) (ctx_neg l enc query pos_title w) neg_title)
    as [ne|ex] eqn:En.
  - destruct (rows_agree (pe ++ ne)) eqn:Hc.
    + rewrite (forward_prediction_run l enc query pos_title neg_title w qe pe ne)
        by assumption.
      reflexivity.
    + unfold forward.
      rewrite (bind_query_side l enc) by assumption.
      unfold ctx_query in Eq. rewrite Eq.
      rewrite (bind_query_side l enc) by assumption.
      unfold ctx_pos in Ep. rewrite Ep.
      rewrite (bind_query_side l enc) by assumption.
      unfold ctx_neg in En. rewrite En.
      rewrite bind_lift. unfold paddle_concat. simpl.
      rewrite app_nil_r, Hc. reflexivity.
  - unfold forward.
    rewrite (bind_query_side l enc) by assumption.
    unfold ctx_query in Eq. rewrite Eq.
    rewrite (bind_query_side l enc) by assumption.
    unfold ctx_pos in Ep. rewrite Ep.
    rewrite (bind_query_side l enc) by assumption.
    unfold ctx_neg in En. rewrite En. reflexivity.
Qed.
End ModelFacts.

(** ** Layers *)

(** What the spec says construction does to a backbone: the same tree,
    layer for layer and parameter for parameter, with the epsilon of
    every normalisation layer set to [e]. *)
Fixpoint with_epsilon {R} (e : Q) (layer : Layer R) : Layer R :=
  match layer with
  | LayerNorm _ p => LayerNorm e p
  | Sublayers k p cs => Sublayers k p (map (with_epsilon e) cs)
  end.

Section LayerFacts.
Context {R : Type}.

(** Induction over a module tree, with the hypothesis for every child. *)
Lemma Layer_tree_ind (P : Layer R -> Prop) :
  (forall e p, P (LayerNorm e p)) ->
  (forall k p cs, Forall P cs -> P (Sublayers k p cs)) ->
  forall layer, P layer.
Proof.
  intros Hleaf Hnode.
  fix IH 1. intros [e p|k p cs].
  - apply Hleaf.
  - apply Hnode. induction cs as [|c cs IHcs]; constructor.
    + apply IH.
    + apply IHcs.
Qed.

Lemma init_weights_sublayers (layer : Layer R) :
  layernorm_eps_all eps_1e_5 (Layer_apply init_weights layer).
Proof.
  induction layer as [e p|k p cs IH] using Layer_tree_ind;
    intros e' p' Hin; simpl in Hin.
  - destruct Hin as [[= <- _]|[]]. reflexivity.
  - destruct Hin as [[=]|Hin].
    apply in_concat in Hin. destruct Hin as (subs & Hsubs & Hin).
    rewrite map_map in Hsubs. apply in_map_iff in Hsubs.
    destruct Hsubs as (c & <- & Hc).
    rewrite Forall_forall in IH.
    apply (IH c (proj2 (list_elem_of_In _ _) Hc) e' p' Hin).
Qed.

Lemma map_agree {A B} (f g : A -> B) (xs : list A) :
  Forall (fun a => f a = g a) xs -> map f xs = map g xs.
Proof.
  induction 1 as [|a xs E _ IH]; simpl; [reflexivity|]. rewrite E, IH. reflexivity.
Qed.

(** The hook run over a tree is that tree with every epsilon forced. *)
Lemma init_weights_forces_epsilon (layer : Layer R) :
  Layer_apply init_weights layer = with_epsilon eps_1e_5 layer.
Proof.
  induction layer as [e p|k p cs IH] using Layer_tree_ind; simpl; [reflexivity|].
  f_equal. apply map_agree, IH.
Qed.

(** Every [LayerNorm] of the tree is still there afterwards, with its
    parameters and the forced epsilon. *)
Lemma init_weights_keeps_layernorm (layer : Layer R) e p :
  In (LayerNorm e p) (sublayers layer) ->
  In (LayerNorm eps_1e_5 p) (sublayers (Layer_apply init_weights layer)).
Proof.
  induction layer as [e0 p0|k p0 cs IH] using Layer_tree_ind; intros Hin;
    simpl in Hin.
  - destruct Hin as [[= _ ->]|[]]. left. reflexivity.
  - destruct Hin as [[=]|Hin]. simpl. right.
    apply in_concat in Hin. destruct Hin as (subs & Hsubs & Hin).
    apply in_map_iff in Hsubs. destruct Hsubs as (c & <- & Hc).
    rewrite Forall_forall in IH.
    apply in_concat. exists (sublayers (Layer_apply init_weights c)). split.
    + rewrite map_map. apply in_map_iff. exists c. split; [reflexivity|exact Hc].
    + apply (IH c (proj2 (list_elem_of_In _ _) Hc) Hin).
Qed.
End LayerFacts.

(** * The claims *)

(** C10.  [ErnieEncoder.__init__] keeps the backbone it is given, layer
    for layer and parameter for parameter, and forces the epsilon of
    every [LayerNorm] sublayer to [1e-5], whatever epsilon the backbone
    came with: each [LayerNorm] of the backbone is a [LayerNorm] of the
    encoder, with its parameters and epsilon [1e-5], and the encoder has
    no [LayerNorm] with another epsilon.  After
    [ErnieDualEncoder.__init__], for any model identifiers, the object
    behind [query_ernie] and the one behind [title_ernie] are encoders
    built in this way around the backbone of a checkpoint the
    constructor was given. *)
Theorem layernorm_epsilon_after_construction {R : Type} `{Scalar R} `{Framework R} :
  (forall backbone : Layer R,
     training (ErnieEncoder___init__ backbone) = true /\
     ernie (ErnieEncoder___init__ backbone) = with_epsilon eps_1e_5 backbone /\
     (forall e p,
        In (LayerNorm e p) (sublayers backbone) ->
        In (LayerNorm eps_1e_5 p) (sublayers (ernie (ErnieEncoder___init__ backbone)))) /\
     layernorm_eps_all eps_1e_5 (ernie (ErnieEncoder___init__ backbone))) /\
  (forall q t share d ucb (w0 w : world R) name l,
     ErnieDualEncoder___init__ q t share d ucb w0 = (Ok tt, w) ->
     name = "query_ernie" \/ name = "title_ernie" ->
     self_attrs w !! name = Some (VEncoder l) ->
     exists model backbone,
       (model = q \/ t = Some model) /\
       load_pretrained model = Ok backbone /\
       heap w !! l = Some (ErnieEncoder___init__ backbone) /\
       ernie (ErnieEncoder___init__ backbone) = with_epsilon eps_1e_5 backbone /\
       layernorm_eps_all eps_1e_5 (ernie (ErnieEncoder___init__ backbone))).
Proof.
  split.
  - intros backbone. split; [reflexivity|]. split; [|split].
    + apply init_weights_forces_epsilon.
    + intros e p. apply init_weights_keeps_layernorm.
    + apply init_weights_sublayers.
  - intros q t share d ucb w0 w name l Hinit Hname Hattr.
    apply ErnieDualEncoder___init___inv in Hinit.
    destruct Hinit as (bq & Hload & Hq & Hhq & _ & _ & _ & _ & Htitle).
    destruct Hname as [-> | ->].
    + rewrite Hq in Hattr. injection Hattr as <-.
      exists q, bq. split; [left; reflexivity|]. split; [exact Hload|].
      split; [exact Hhq|]. split;
        [apply init_weights_forces_epsilon|apply init_weights_sublayers].
    + destruct Htitle as [(_ & Ht)|[(_ & _ & Ht)|(_ & tn & bt & lt & Htn & Hlt & _ & Ht & Hht)]];
        rewrite Ht in Hattr; try discriminate Hattr; injection Hattr as <-.
      * exists q, bq. split; [left; reflexivity|]. split; [exact Hload|].
        split; [exact Hhq|]. split;
          [apply init_weights_forces_epsilon|apply init_weights_sublayers].
      * exists tn, bt. split; [right; exact Htn|]. split; [exact Hlt|].
        split; [exact Hht|]. split;
          [apply init_weights_forces_epsilon|apply init_weights_sublayers].
Qed.

(** The title tower of the two-checkpoint model is the encoder built
    around the title checkpoint, whose one [LayerNorm], loaded with
    epsilon [1e-12], is there with [1e-5]. *)
Lemma layernorm_epsilon_after_construction_witness :
  (exists model backbone,
     (model = "ernie-base-cn-query-encoder"
      \/ Some "ernie-base-cn-title-encoder" = Some model) /\
     load_pretrained model = Ok backbone /\
     heap Toy.two_towers !! 2%positive = Some (ErnieEncoder___init__ backbone) /\
     ernie (ErnieEncoder___init__ backbone) = with_epsilon eps_1e_5 backbone /\
     layernorm_eps_all eps_1e_5 (ernie (ErnieEncoder___init__ backbone))) /\
  In (LayerNorm eps_1e_5 [])
     (sublayers (ernie (ErnieEncoder___init__ Toy.title_backbone))).
Proof.
  split.
  - apply (proj2 layernorm_epsilon_after_construction
             "ernie-base-cn-query-encoder" (Some "ernie-base-cn-title-encoder")
             false None false Toy.blank Toy.two_towers "title_ernie" 2%positive).
    + vm_compute. reflexivity.
    + right. reflexivity.
    + vm_compute. reflexivity.
  - apply (proj1 (proj2 (proj2 (proj1 layernorm_epsilon_after_construction
                                  Toy.title_backbone)))
             (Qmake 1 1000000000000) []).
    simpl. right. left. reflexivity.
Defined.

(** C3.  [get_pooled_embedding] raises the assertion error with the
    [is_query] message, before any encoder runs, when the query side is
    asked for and [query_ernie] is [None], or the title side is asked
    for and [title_ernie] is [None].  A dual encoder built with
    [share_parameters=False] and no title model has [title_ernie = None],
    so its title side raises. *)
Theorem get_pooled_embedding_needs_its_encoder {R : Type} `{Scalar R} `{Framework R} :
  (forall (x : enc_input) (is_query : bool) (w : world R),
     (is_query = true /\ self_attrs w !! "query_ernie" = Some VNone) \/
     (is_query = false /\ self_attrs w !! "title_ernie" = Some VNone) ->
     get_pooled_embedding x is_query w
     = (Raise (AssertionError
                 "Please check whether your parameter for `is_query` are consistent with DualEncoder initialization."),
        w)) /\
  (forall q d ucb (w0 w : world R) (x : enc_input),
     ErnieDualEncoder___init__ q None false d ucb w0 = (Ok tt, w) ->
     self_attrs w !! "title_ernie" = Some VNone /\
     get_pooled_embedding x false w = (Raise (AssertionError is_query_message), w)).
Proof.
  split.
  - intros x is_query w Hc. apply get_pooled_embedding_absent, Hc.
  - intros q d ucb w0 w x Hinit.
    apply ErnieDualEncoder___init___inv in Hinit.
    destruct Hinit as (bq & _ & _ & _ & _ & _ & _ & _ & Htitle).
    assert (Ht : self_attrs w !! "title_ernie" = Some VNone).
    { destruct Htitle as [([=] & _)|[(_ & _ & Ht)|(_ & tn & bt & lt & [=] & _)]].
      exact Ht. }
    split; [exact Ht|].
    apply get_pooled_embedding_absent. right. split; [reflexivity|exact Ht].
Qed.

(** The query-only model refuses the title side, and logs no call. *)
Lemma get_pooled_embedding_needs_its_encoder_witness :
  get_pooled_embedding (Toy.ids [[1]; [3]]) false Toy.query_only
  = (Raise (AssertionError is_query_message), Toy.query_only) /\
  self_attrs Toy.query_only !! "title_ernie" = Some VNone.
Proof.
  split.
  - apply (proj1 get_pooled_embedding_needs_its_encoder).
    right. split; [reflexivity|]. vm_compute. reflexivity.
  - apply (proj2 get_pooled_embedding_needs_its_encoder
             "ernie-base-cn-query-encoder" None false Toy.blank Toy.query_only
             (Toy.ids [])).
    vm_compute. reflexivity.
Defined.

(** C5.  With [share_parameters=True] the constructor stores one and the
    same object in [query_ernie] and [title_ernie].  So in every later
    world with these two attributes, whatever has been done to the heap
    since, the title side and the query side of [get_pooled_embedding]
    are the same computation; and storing new weights in that object
    shows on both sides. *)
Theorem shared_parameters_one_instance {R : Type} `{Scalar R} `{Framework R} :
  forall q t d ucb (w0 w : world R),
    ErnieDualEncoder___init__ q t true d ucb w0 = (Ok tt, w) ->
    exists l enc,
      self_attrs w !! "query_ernie" = Some (VEncoder l) /\
      self_attrs w !! "title_ernie" = Some (VEncoder l) /\
      heap w !! l = Some enc /\
      (forall (w' : world R) (x : enc_input),
         self_attrs w' !! "query_ernie" = self_attrs w !! "query_ernie" ->
         self_attrs w' !! "title_ernie" = self_attrs w !! "title_ernie" ->
         get_pooled_embedding x false w' = get_pooled_embedding x true w') /\
      (forall (enc' : ErnieEncoder R) (x : enc_input) (is_query : bool),
         let w' := mkWorld (self_attrs w) (<[l := enc']> (heap w))
                           (grad_enabled w) (calls w) in
         fst (get_pooled_embedding x is_query w')
         = pooled_by (ernie enc') (ctx_of enc' w') x).
Proof.
  intros q t d ucb w0 w Hinit.
  apply ErnieDualEncoder___init___inv in Hinit.
  destruct Hinit as (bq & _ & Hq & Hhq & _ & _ & _ & _ & Htitle).
  assert (Ht : self_attrs w !! "title_ernie"
               = Some (VEncoder (fresh (dom (heap w0))))).
  { destruct Htitle as [(_ & Ht)|[([=] & _)|([=] & _)]]. exact Ht. }
  exists (fresh (dom (heap w0))), (ErnieEncoder___init__ bq).
  repeat split; try assumption.
  - intros w' x Eq Et. rewrite Hq in Eq. rewrite Ht in Et.
    unfold get_pooled_embedding, bind, getattr, ret. simpl.
    rewrite Eq, Et. simpl. rewrite Eq, Et. reflexivity.
  - intros enc' x is_query w'.
    assert (Hl : heap w' !! fresh (dom (heap w0)) = Some enc')
      by apply lookup_insert_eq.
    destruct is_query.
    + rewrite (get_pooled_embedding_query _ enc' x w' Hq Hl). reflexivity.
    + rewrite (get_pooled_embedding_title _ enc' x w' Ht Hl). reflexivity.
Qed.

(** In the model built with [share_parameters=True], both attributes hold
    the object at address 1. *)
Lemma shared_parameters_one_instance_witness :
  exists l enc,
    self_attrs Toy.shared !! "query_ernie" = Some (VEncoder l) /\
    self_attrs Toy.shared !! "title_ernie" = Some (VEncoder l) /\
    heap Toy.shared !! l = Some enc /\
    (forall (w' : world Z) (x : enc_input),
       self_attrs w' !! "query_ernie" = self_attrs Toy.shared !! "query_ernie" ->
       self_attrs w' !! "title_ernie" = self_attrs Toy.shared !! "title_ernie" ->
       get_pooled_embedding x false w' = get_pooled_embedding x true w') /\
    (forall (enc' : ErnieEncoder Z) (x : enc_input) (is_query : bool),
       let w' := mkWorld (self_attrs Toy.shared) (<[l := enc']> (heap Toy.shared))
                         (grad_enabled Toy.shared) (calls Toy.shared) in
       fst (get_pooled_embedding x is_query w')
       = pooled_by (ernie enc') (ctx_of enc' w') x).
Proof.
  apply (shared_parameters_one_instance "ernie-base-cn-query-encoder" None None
           false Toy.blank Toy.shared).
  vm_compute. reflexivity.
Defined.

(** C6.  When both encoders are there and the backbone returns, for a
    query batch and a title batch of [n] sequences each, [n] pooled
    vectors of one width each, [cosine_sim] returns a sequence of length
    [n] whose entry at every batch position is the raw dot product of the
    query vector and the title vector at that position: no
    normalisation.  Worked over the integers: [1,0,0] and [0,1,0] give 0,
    [1,1,0] and [1,1,0] give 2. *)
Theorem cosine_sim_is_the_raw_dot_product {R : Type} `{Scalar R} `{Framework R} :
  forall lq eq lt et (query title : enc_input) (w : world R) (qs ts : tensor2 R),
    self_attrs w !! "query_ernie" = Some (VEncoder lq) ->
    heap w !! lq = Some eq ->
    self_attrs w !! "title_ernie" = Some (VEncoder lt) ->
    heap w !! lt = Some et ->
    pooled_by (ernie eq) (ctx_of eq w) query = Ok qs ->
    pooled_by (ernie et) (ctx_of et (after_call lq eq query w)) title = Ok ts ->
    length qs = length (input_ids query) ->
    same_shape qs ts ->
    exists sims,
      fst (cosine_sim query title w) = Ok sims /\
      sims = zip_with dot_product qs ts /\
      length sims = length (input_ids query) /\
      (forall i u v, qs !! i = Some u -> ts !! i = Some v ->
                     sims !! i = Some (dot_product u v)) /\
      dot_product [1; 0; 0] [0; 1; 0] = 0 /\
      dot_product [1; 1; 0] [1; 1; 0] = 2.
Proof.
  intros lq eq lt et query title w qs ts Hq Hlq Ht Hlt Eq Et Hn Hs.
  exists (zip_with dot_product qs ts).
  split; [|split; [reflexivity|split; [|split; [|split; reflexivity]]]].
  - unfold cosine_sim.
    rewrite (bind_query_side lq eq) by assumption. rewrite Eq.
    rewrite (bind_title_side lt et) by assumption. rewrite Et.
    rewrite bind_lift, (tensor_mul_same _ _ Hs). simpl.
    rewrite sum_of_products. reflexivity.
  - rewrite length_zip_with_l_eq; [exact Hn|]. apply (Forall2_length _ _ _ Hs).
  - intros i u v Hu Hv. apply lookup_zip_with_Some. exists u, v. auto.
Qed.

(** The shared model on the token pairs (1, 2) and (3, 3), whose hidden
    vectors are [1,0,0], [0,1,0] and [1,1,0], [1,1,0]. *)
Lemma cosine_sim_is_the_raw_dot_product_witness :
  exists sims,
    fst (cosine_sim (Toy.ids [[1]; [3]]) (Toy.ids [[2]; [3]]) Toy.shared) = Ok sims /\
    sims = zip_with dot_product [[1; 0; 0]; [1; 1; 0]] [[0; 1; 0]; [1; 1; 0]] /\
    length sims = 2%nat /\
    (forall i u v, [[1; 0; 0]; [1; 1; 0]] !! i = Some u ->
                   [[0; 1; 0]; [1; 1; 0]] !! i = Some v ->
                   sims !! i = Some (dot_product u v)) /\
    dot_product [1; 0; 0] [0; 1; 0] = 0 /\
    dot_product [1; 1; 0] [1; 1; 0] = 2.
Proof.
  apply (cosine_sim_is_the_raw_dot_product 1%positive Toy.query_encoder
           1%positive Toy.query_encoder
           (Toy.ids [[1]; [3]]) (Toy.ids [[2]; [3]]) Toy.shared
           [[1; 0; 0]; [1; 1; 0]] [[0; 1; 0]; [1; 1; 0]]);
    try (vm_compute; reflexivity).
  repeat constructor.
Defined.

(** C4.  In prediction mode, when the three encoder calls and the
    concatenation go through and the query and positive-title embeddings
    have one shape, [forward] returns the dictionary with exactly the keys
    [probs], [q_rep] and [p_rep]: [probs] holds the dot product of the
    query and positive-title embeddings, row by row, [q_rep] the query
    embedding and [p_rep] the positive-title embedding.  There is no
    [loss] and no [accuracy] key; neither [rank], nor the accuracy, nor
    the cross-entropy of the framework enters the result. *)
Theorem forward_prediction_outputs {R : Type} `{Scalar R} `{Framework R} :
  forall l enc (query pos_title neg_title : enc_input) (w : world R) (qe pe ne : tensor2 R),
    self_attrs w !! "query_ernie" = Some (VEncoder l) ->
    heap w !! l = Some enc ->
    pooled_by (ernie enc) (ctx_query enc w) query = Ok qe ->
    pooled_by (ernie enc) (ctx_pos l enc query w) pos_title = Ok pe ->
    pooled_by (ernie enc) (ctx_neg l enc query pos_title w) neg_title = Ok ne ->
    rows_agree (pe ++ ne) = true ->
    same_shape qe pe ->
    exists outputs,
      fst (forward query pos_title neg_title true w) = Ok outputs /\
      outputs = <["probs" := T1 (zip_with dot_product qe pe)]>
                  (<["q_rep" := T2 qe]> (<["p_rep" := T2 pe]> ∅)) /\
      dom outputs = {["probs"; "q_rep"; "p_rep"]} /\
      outputs !! "probs" = Some (T1 (zip_with dot_product qe pe)) /\
      outputs !! "q_rep" = Some (T2 qe) /\
      outputs !! "p_rep" = Some (T2 pe) /\
      outputs !! "loss" = None /\
      outputs !! "accuracy" = None.
Proof.
  intros l enc query pos_title neg_title w qe pe ne Hq Hl Eq Ep En Hc Hs.
  eexists. split; [|split; [reflexivity|]].
  - rewrite (forward_prediction_run l enc query pos_title neg_title w qe pe ne)
      by assumption.
    simpl. rewrite (paddle_dot_same _ _ Hs). reflexivity.
  - repeat split; try (simplify_map_eq; reflexivity).
Qed.

(** A prediction call on the two-tower model. *)
Lemma forward_prediction_outputs_witness :
  exists outputs,
    fst (forward (Toy.ids [[1]; [3]]) (Toy.ids [[2]; [3]]) (Toy.ids [[0]; [1]])
           true Toy.two_towers) = Ok outputs /\
    outputs = <["probs" := T1 (zip_with dot_product
                                 [[1; 0; 0]; [1; 1; 0]] [[0; 1; 0]; [1; 1; 0]])]>
                (<["q_rep" := T2 [[1; 0; 0]; [1; 1; 0]]]>
                 (<["p_rep" := T2 [[0; 1; 0]; [1; 1; 0]]]> ∅)) /\
    dom outputs = {["probs"; "q_rep"; "p_rep"]} /\
    outputs !! "probs"
    = Some (T1 (zip_with dot_product [[1; 0; 0]; [1; 1; 0]] [[0; 1; 0]; [1; 1; 0]])) /\
    outputs !! "q_rep" = Some (T2 [[1; 0; 0]; [1; 1; 0]]) /\
    outputs !! "p_rep" = Some (T2 [[0; 1; 0]; [1; 1; 0]]) /\
    outputs !! "loss" = None /\
    outputs !! "accuracy" = None.
Proof.
  apply (forward_prediction_outputs 1%positive Toy.query_encoder
           (Toy.ids [[1]; [3]]) (Toy.ids [[2]; [3]]) (Toy.ids [[0]; [1]])
           Toy.two_towers
           [[1; 0; 0]; [1; 1; 0]] [[0; 1; 0]; [1; 1; 0]] [[0; 0; 0]; [1; 0; 0]]);
    try (vm_compute; reflexivity).
  repeat constructor.
Defined.

(** C8.  [forward] encodes the negative titles and concatenates them with
    the positive ones before it looks at [is_prediction].  Once the query
    and positive-title calls have gone through, the log of either mode
    ends with a call on [neg_title]; in prediction mode a failing
    negative-title call, or a failing concatenation, is the failure of
    [forward]; and when both go through, the prediction output is built
    from the query and positive-title embeddings alone. *)
Theorem forward_prediction_still_encodes_negatives {R : Type} `{Scalar R} `{Framework R} :
  forall l enc (query pos_title neg_title : enc_input) (w : world R) (qe pe : tensor2 R),
    self_attrs w !! "query_ernie" = Some (VEncoder l) ->
    heap w !! l = Some enc ->
    pooled_by (ernie enc) (ctx_query enc w) query = Ok qe ->
    pooled_by (ernie enc) (ctx_pos l enc query w) pos_title = Ok pe ->
    (forall is_prediction : bool,
       calls (snd (forward query pos_title neg_title is_prediction w))
       = calls w ++ [call_at l enc query w; call_at l enc pos_title w;
                     call_at l enc neg_title w]) /\
    (forall ex,
       pooled_by (ernie enc) (ctx_neg l enc query pos_title w) neg_title = Raise ex ->
       fst (forward query pos_title neg_title true w) = Raise ex) /\
    (forall ne,
       pooled_by (ernie enc) (ctx_neg l enc query pos_title w) neg_title = Ok ne ->
       rows_agree (pe ++ ne) = false ->
       fst (forward query pos_title neg_title true w) = Raise ValueError) /\
    (forall ne,
       pooled_by (ernie enc) (ctx_neg l enc query pos_title w) neg_title = Ok ne ->
       rows_agree (pe ++ ne) = true ->
       fst (forward query pos_title neg_title true w)
       = rbind (paddle_dot qe pe) (fun logits =>
           Ok (<["probs" := T1 logits]>
               (<["q_rep" := T2 qe]> (<["p_rep" := T2 pe]> ∅))))).
Proof.
  intros l enc query pos_title neg_title w qe pe Hq Hl Eq Ep.
  pose proof (forward_prediction_negative_fails l enc query pos_title neg_title
                w qe pe Hq Hl Eq Ep) as F.
  repeat split.
  - intros b. apply (forward_calls l enc query pos_title neg_title b w qe pe);
      assumption.
  - intros ex En. rewrite F, En. reflexivity.
  - intros ne En Hc. rewrite F, En, Hc. reflexivity.
  - intros ne En Hc. rewrite F, En, Hc. reflexivity.
Qed.

(** A prediction call whose negative titles hold the unknown token 7: the
    call is made, and its error is the result. *)
Lemma forward_prediction_still_encodes_negatives_witness :
  calls (snd (forward (Toy.ids [[1]; [3]]) (Toy.ids [[2]; [3]]) (Toy.ids [[0]; [7]])
                true Toy.two_towers))
  = [call_at 1%positive Toy.query_encoder (Toy.ids [[1]; [3]]) Toy.two_towers;
     call_at 1%positive Toy.query_encoder (Toy.ids [[2]; [3]]) Toy.two_towers;
     call_at 1%positive Toy.query_encoder (Toy.ids [[0]; [7]]) Toy.two_towers] /\
  fst (forward (Toy.ids [[1]; [3]]) (Toy.ids [[2]; [3]]) (Toy.ids [[0]; [7]])
         true Toy.two_towers) = Raise IndexError.
Proof.
  assert (T := forward_prediction_still_encodes_negatives 1%positive Toy.query_encoder
                 (Toy.ids [[1]; [3]]) (Toy.ids [[2]; [3]]) (Toy.ids [[0]; [7]])
                 Toy.two_towers [[1; 0; 0]; [1; 1; 0]] [[0; 1; 0]; [1; 1; 0]]).
  destruct T as (Hcalls & Hfail & _ & _); try (vm_compute; reflexivity).
  split.
  - exact (Hcalls true).
  - apply Hfail. vm_compute. reflexivity.
Defined.

(** C2.  In training mode, on a process whose [rank] attribute is the
    integer [r], with a local batch of [B] queries, and when everything
    before the labels goes through, the labels handed to the accuracy
    and to the cross-entropy are the column of the integers from
    [2*B*r] up to, and not including, [2*B*r + B]: there are [B] of
    them, the one of query [i] is [2*B*r + i], and on rank 0 they are
    [0, 1, ..., B-1]. *)
Theorem training_labels {R : Type} `{Scalar R} `{Framework R} :
  forall l enc (query pos_title neg_title : enc_input) (w : world R)
         (qe pe ne : tensor2 R) ucb (cands logits : tensor2 R) (r : Z),
    self_attrs w !! "query_ernie" = Some (VEncoder l) ->
    heap w !! l = Some enc ->
    pooled_by (ernie enc) (ctx_query enc w) query = Ok qe ->
    pooled_by (ernie enc) (ctx_pos l enc query w) pos_title = Ok pe ->
    pooled_by (ernie enc) (ctx_neg l enc query pos_title w) neg_title = Ok ne ->
    rows_agree (pe ++ ne) = true ->
    self_attrs w !! "use_cross_batch" = Some ucb ->
    candidates ucb (pe ++ ne) = Ok cands ->
    paddle_matmul_T qe cands = Ok logits ->
    self_attrs w !! "rank" = Some (VInt r) ->
    fits_int64 (Z.of_nat (length qe) * r * 2) = true ->
    fits_int64 (Z.of_nat (length qe) * (r * 2 + 1)) = true ->
    fst (forward query pos_title neg_title false w)
    = rbind (metric_accuracy logits (label_column (length qe) r)) (fun accuracy =>
      rbind (cross_entropy logits (label_column (length qe) r)) (fun loss =>
      Ok (<["loss" := T0 loss]> (<["accuracy" := T0 accuracy]> ∅)))) /\
    length (label_column (length qe) r) = length qe /\
    (forall i : nat,
       (i < length qe)%nat ->
       label_column (length qe) r !! i
       = Some [2 * Z.of_nat (length qe) * r + Z.of_nat i]) /\
    (r = 0 ->
     label_column (length qe) r = map (fun i => [Z.of_nat i]) (seq 0 (length qe))).
Proof.
  intros l enc query pos_title neg_title w qe pe ne ucb cands logits r
    Hq Hl Eq Ep En Hc Hu Hcands Hm Hr Hlo Hhi.
  split; [|split; [|split]].
  - rewrite (forward_training_run l enc query pos_title neg_title w qe pe ne
               ucb cands logits) by assumption.
    simpl. unfold training_outputs. rewrite Hr. simpl.
    rewrite (paddle_arange_ok _ _ Hlo Hhi). simpl.
    replace (Z.of_nat (length qe) * (r * 2 + 1) - Z.of_nat (length qe) * r * 2)
      with (Z.of_nat (length qe)) by lia.
    rewrite Nat2Z.id. reflexivity.
  - apply label_column_length.
  - apply label_column_lookup.
  - intros ->. apply label_column_rank0.
Qed.

(** Two queries on rank 1 of two processes: the labels are 4 and 5. *)
Lemma training_labels_witness :
  fst (forward (Toy.ids [[1]; [3]]) (Toy.ids [[2]; [3]]) (Toy.ids [[0]; [1]])
         false Toy.cross_batch_rank1)
  = rbind (metric_accuracy
             [[0; 1; 0; 1; 0; 1; 0; 1]; [1; 2; 0; 1; 1; 2; 0; 1]]
             (label_column 2 1)) (fun accuracy =>
    rbind (cross_entropy
             [[0; 1; 0; 1; 0; 1; 0; 1]; [1; 2; 0; 1; 1; 2; 0; 1]]
             (label_column 2 1)) (fun loss =>
    Ok (<["loss" := T0 loss]> (<["accuracy" := T0 accuracy]> ∅)))) /\
  label_column 2 1 = [[4]; [5]].
Proof.
  split; [|reflexivity].
  apply (training_labels 1%positive Toy.query_encoder
           (Toy.ids [[1]; [3]]) (Toy.ids [[2]; [3]]) (Toy.ids [[0]; [1]])
           Toy.cross_batch_rank1
           [[1; 0; 0]; [1; 1; 0]] [[0; 1; 0]; [1; 1; 0]] [[0; 0; 0]; [1; 0; 0]]
           (VBool true)
           [[0; 1; 0]; [1; 1; 0]; [0; 0; 0]; [1; 0; 0];
            [0; 1; 0]; [1; 1; 0]; [0; 0; 0]; [1; 0; 0]]
           [[0; 1; 0; 1; 0; 1; 0; 1]; [1; 2; 0; 1; 1; 2; 0; 1]] 1);
    vm_compute; reflexivity.
Defined.

(** C7.  Neither the constructor nor any method of the class assigns
    [rank].  So on a freshly built dual encoder, no call of [forward] in
    training mode produces a loss, whatever [use_cross_batch] is; and
    when the call gets as far as the labels (the three encoder calls, the
    concatenation, the gathering and the product go through), what it
    raises is the attribute error for [rank]. *)
Theorem forward_training_fails_without_rank {R : Type} `{Scalar R} `{Framework R} :
  forall q t share d ucb (w0 w : world R),
    self_attrs w0 !! "rank" = None ->
    ErnieDualEncoder___init__ q t share d ucb w0 = (Ok tt, w) ->
    self_attrs w !! "rank" = None /\
    (forall v : world R,
       self_attrs v !! "rank" = None ->
       (forall x b, self_attrs (snd (get_pooled_embedding x b v)) !! "rank" = None) /\
       (forall a b, self_attrs (snd (cosine_sim a b v)) !! "rank" = None) /\
       (forall a b c m, self_attrs (snd (forward a b c m v)) !! "rank" = None) /\
       (forall g, self_attrs (snd (gen_next g v)) !! "rank" = None)) /\
    (forall query pos_title neg_title,
       is_ok (fst (forward query pos_title neg_title false w)) = false) /\
    exists l enc,
      self_attrs w !! "query_ernie" = Some (VEncoder l) /\
      heap w !! l = Some enc /\
      forall query pos_title neg_title (qe pe ne cands logits : tensor2 R),
        pooled_by (ernie enc) (ctx_query enc w) query = Ok qe ->
        pooled_by (ernie enc) (ctx_pos l enc query w) pos_title = Ok pe ->
        pooled_by (ernie enc) (ctx_neg l enc query pos_title w) neg_title = Ok ne ->
        rows_agree (pe ++ ne) = true ->
        candidates (VBool ucb) (pe ++ ne) = Ok cands ->
        paddle_matmul_T qe cands = Ok logits ->
        fst (forward query pos_title neg_title false w) = Raise (AttributeError "rank").
Proof.
  intros q t share d ucb w0 w Hr0 Hinit.
  apply ErnieDualEncoder___init___inv in Hinit.
  destruct Hinit as (bq & _ & Hq & Hhq & Hu & Hr & _ & _ & _).
  rewrite Hr0 in Hr.
  split; [exact Hr|]. split; [|split].
  - intros v Hv. repeat split.
    + intros x b. destruct (get_pooled_embedding_logs x b v) as [-> _]. exact Hv.
    + intros a b. destruct (cosine_sim_logs a b v) as [-> _]. exact Hv.
    + intros a b c m. destruct (forward_logs a b c m v) as [-> _]. exact Hv.
    + intros g. rewrite gen_next_attr by discriminate. exact Hv.
  - intros query pos_title neg_title.
    apply forward_training_without_rank, Hr.
  - exists (fresh (dom (heap w0))), (ErnieEncoder___init__ bq).
    split; [exact Hq|]. split; [exact Hhq|].
    intros query pos_title neg_title qe pe ne cands logits Eq Ep En Hc Hcands Hm.
    rewrite (forward_training_run _ _ query pos_title neg_title w qe pe ne
               (VBool ucb) cands logits Hq Hhq Eq Ep En Hc Hu Hcands Hm).
    simpl. rewrite Hr. reflexivity.
Qed.

(** The two-checkpoint model, right after its constructor. *)
Lemma forward_training_fails_without_rank_witness :
  self_attrs Toy.two_towers !! "rank" = None /\
  is_ok (fst (forward (Toy.ids [[1]; [3]]) (Toy.ids [[2]; [3]]) (Toy.ids [[0]; [1]])
                false Toy.two_towers)) = false.
Proof.
  assert (T := forward_training_fails_without_rank
                 "ernie-base-cn-query-encoder" (Some "ernie-base-cn-title-encoder")
                 false None false Toy.blank Toy.two_towers).
  destruct T as (Hr & _ & Hfail & _); try (vm_compute; reflexivity).
  split; [exact Hr|apply Hfail].
Defined.

(** C7, as first worded, has every training-mode call on a fresh model
    fail with the attribute error.  On the freshly built two-checkpoint
    model, which has no [rank], a call whose negative titles hold the
    unknown token 7 fails in the third encoder call, with the backbone's
    [IndexError]: the encoder calls of [forward] come before it reads
    [rank]. *)
Lemma forward_training_backbone_error_comes_first :
  ErnieDualEncoder___init__ "ernie-base-cn-query-encoder"
    (Some "ernie-base-cn-title-encoder") false None false Toy.blank
  = (Ok tt, Toy.two_towers) /\
  self_attrs Toy.two_towers !! "rank" = None /\
  fst (forward (Toy.ids [[1]; [3]]) (Toy.ids [[2]; [3]]) (Toy.ids [[0]; [7]])
         false Toy.two_towers) = Raise IndexError /\
  fst (forward (Toy.ids [[1]; [3]]) (Toy.ids [[2]; [3]]) (Toy.ids [[0]; [7]])
         false Toy.two_towers) <> Raise (AttributeError "rank").
Proof.
  assert (E : fst (forward (Toy.ids [[1]; [3]]) (Toy.ids [[2]; [3]])
                     (Toy.ids [[0]; [7]]) false Toy.two_towers) = Raise IndexError)
    by (vm_compute; reflexivity).
  split; [vm_compute; reflexivity|].
  split; [vm_compute; reflexivity|].
  split; [exact E|]. rewrite E. discriminate.
Qed.

(** C9.  [get_semantic_embedding] is a generator over the batches of the
    data loader.  With the query encoder in place, and [es] what the
    backbone returns for the batches in evaluation mode with gradients
    off, a consumer that asks for [n] items gets the first [n] of [es],
    in the order of the batches, and by then the encoder has been called
    on the first [n] batches and on nothing else, each call in
    evaluation mode with gradients off; a consumer that asks for more
    than there are batches gets exactly [es], as many items as batches,
    and leaves the gradient switch as it found it.  Over an empty data
    loader the sequence is empty. *)
Theorem get_semantic_embedding_lazy_in_order {R : Type} `{Scalar R} `{Framework R} :
  forall l enc (data_loader : list batch) (w : world R) (es : list (tensor2 R)),
    self_attrs w !! "query_ernie" = Some (VEncoder l) ->
    heap w !! l = Some enc ->
    corpus_runs (ernie enc) (length (calls w)) data_loader = map Ok es ->
    length es = length data_loader /\
    (forall n : nat,
       (n <= length data_loader)%nat ->
       exists g' w',
         take_items n (get_semantic_embedding data_loader) w = (Ok (take n es), g', w') /\
         calls w' = calls w ++ map (served l) (take n data_loader)) /\
    (forall n : nat,
       (length data_loader < n)%nat ->
       exists w',
         take_items n (get_semantic_embedding data_loader) w = (Ok es, GenFinished, w') /\
         calls w' = calls w ++ map (served l) data_loader /\
         grad_enabled w' = grad_enabled w) /\
    (forall n : nat,
       exists g' w',
         take_items n (get_semantic_embedding []) w = (Ok [], g', w') /\
         calls w' = calls w).
Proof.
  intros l enc data_loader w es Hq Hl Hruns.
  pose proof (started_serving l enc w Hq Hl) as Sv.
  split; [exact (corpus_runs_length _ _ _ _ Hruns)|]. split; [|split].
  - intros [|n] Hn.
    + exists (GenCreated data_loader), w. split; [reflexivity|].
      simpl. symmetry. apply app_nil_r.
    + unfold get_semantic_embedding. rewrite take_items_created.
      rewrite (take_items_suspended l (ernie enc) data_loader (S n)
                 (grad_enabled w) (started w) es Sv Hruns).
      apply Nat.leb_le in Hn. rewrite Hn.
      eexists _, _. split; reflexivity.
  - intros [|n] Hn; [lia|].
    unfold get_semantic_embedding. rewrite take_items_created.
    rewrite (take_items_suspended l (ernie enc) data_loader (S n)
               (grad_enabled w) (started w) es Sv Hruns).
    apply Nat.leb_gt in Hn. rewrite Hn.
    eexists. split; [reflexivity|]. split; reflexivity.
  - intros [|n]; eexists _, _; split; reflexivity.
Qed.

(** Two batches through the two-checkpoint model: one item asked for,
    one call made; three asked for, both items delivered. *)
Lemma get_semantic_embedding_lazy_in_order_witness :
  (exists g' w',
     take_items 1 (get_semantic_embedding
                     [([[1]; [2]], [[0]; [0]]); ([[3]], [[0]])]) Toy.two_towers
     = (Ok [[[1; 0; 0]; [0; 1; 0]]], g', w') /\
     calls w' = [served 1%positive ([[1]; [2]], [[0]; [0]])]) /\
  (exists w',
     take_items 3 (get_semantic_embedding
                     [([[1]; [2]], [[0]; [0]]); ([[3]], [[0]])]) Toy.two_towers
     = (Ok [[[1; 0; 0]; [0; 1; 0]]; [[1; 1; 0]]], GenFinished, w') /\
     calls w' = [served 1%positive ([[1]; [2]], [[0]; [0]]);
                 served 1%positive ([[3]], [[0]])] /\
     grad_enabled w' = true).
Proof.
  assert (T := get_semantic_embedding_lazy_in_order 1%positive Toy.query_encoder
                 [([[1]; [2]], [[0]; [0]]); ([[3]], [[0]])] Toy.two_towers
                 [[[1; 0; 0]; [0; 1; 0]]; [[1; 1; 0]]]).
  destruct T as (_ & Hlazy & Hall & _); try (vm_compute; reflexivity).
  split.
  - apply (Hlazy 1%nat). simpl. lia.
  - apply (Hall 3%nat). simpl. lia.
Defined.

(** C1.  What [forward] does on a model with two distinct towers: the
    query encoder is the object at address 1 and the title encoder the
    object at address 2, and the three calls of the training-mode pass,
    on the query, the positive titles and the negative titles, all go to
    the object at address 1.  [cosine_sim] on the same model sends its
    titles to the object at address 2. *)
Theorem forward_encodes_titles_with_the_query_tower :
  self_attrs Toy.two_towers !! "query_ernie" = Some (VEncoder 1%positive) /\
  self_attrs Toy.two_towers !! "title_ernie" = Some (VEncoder 2%positive) /\
  map (fun c => (call_encoder c, input_ids (call_input c)))
      (calls (snd (forward (Toy.ids [[1]; [3]]) (Toy.ids [[2]; [3]]) (Toy.ids [[0]; [1]])
                     false Toy.two_towers)))
  = [(1%positive, [[1]; [3]]); (1%positive, [[2]; [3]]); (1%positive, [[0]; [1]])] /\
  map (fun c => (call_encoder c, input_ids (call_input c)))
      (calls (snd (cosine_sim (Toy.ids [[1]; [3]]) (Toy.ids [[2]; [3]]) Toy.two_towers)))
  = [(1%positive, [[1]; [3]]); (2%positive, [[2]; [3]])].
Proof. vm_compute. repeat split; reflexivity. Qed.

(** * Further properties of the module *)

(** ** Pooling: position 0 of every sequence *)

Section PoolingFacts.
Context {R : Type}.

Lemma first_position_nonempty (t : tensor3 R) :
  Forall (fun s => s <> []) t ->
  exists e, first_position t = Ok e /\ Forall2 (fun s v => head s = Some v) t e.
Proof.
  induction 1 as [|s t Hs _ (e & He & IH)].
  - exists []. split; [reflexivity|constructor].
  - destruct s as [|h s']; [congruence|].
    exists (h :: e). unfold first_position in *. simpl. rewrite He.
    split; [reflexivity|]. constructor; [reflexivity|exact IH].
Qed.

Lemma first_position_empty_sequence (t : tensor3 R) :
  Exists (fun s => s = []) t -> first_position t = Raise IndexError.
Proof.
  induction 1 as [s t ->|s t _ IH]; [reflexivity|].
  destruct s as [|h s']; [reflexivity|].
  unfold first_position in *. simpl. rewrite IH. reflexivity.
Qed.
End PoolingFacts.

(** The attribute a side of [get_pooled_embedding] reads. *)
Definition side_attr (is_query : bool) : string :=
  if is_query then "query_ernie" else "title_ernie".

(** X1.  With an encoder behind the requested side,
    [get_pooled_embedding] is one call of that encoder on the given
    input: the call is logged, and when the backbone returns
    [(sequence_output, pooled_output)] the result is, for every sequence
    of the batch, the hidden vector at position 0, one per sequence, in
    order; the backbone's own pooled output is dropped.  A sequence
    without positions makes the call raise [IndexError]. *)
Theorem get_pooled_embedding_takes_position_0 {R : Type} `{Scalar R} `{Framework R} :
  forall l enc (x : enc_input) (is_query : bool) (w : world R)
         (sequence_output : tensor3 R) (pooled_output : tensor2 R),
    self_attrs w !! side_attr is_query = Some (VEncoder l) ->
    heap w !! l = Some enc ->
    ernie_forward (ernie enc) (ctx_of enc w) x = Ok (sequence_output, pooled_output) ->
    snd (get_pooled_embedding x is_query w) = add_call (call_at l enc x w) w /\
    (Forall (fun s => s <> []) sequence_output ->
     exists e,
       fst (get_pooled_embedding x is_query w) = Ok e /\
       length e = length sequence_output /\
       forall i s, sequence_output !! i = Some s -> e !! i = head s) /\
    (Exists (fun s => s = []) sequence_output ->
     fst (get_pooled_embedding x is_query w) = Raise IndexError).
Proof.
  intros l enc x is_query w so po Ha Hl Hrun.
  assert (E : get_pooled_embedding x is_query w
              = (first_position so, add_call (call_at l enc x w) w)).
  { destruct is_query; simpl in Ha.
    - rewrite (get_pooled_embedding_query _ _ _ _ Ha Hl).
      unfold pooled_by. rewrite Hrun. reflexivity.
    - rewrite (get_pooled_embedding_title _ _ _ _ Ha Hl).
      unfold pooled_by. rewrite Hrun. reflexivity. }
  rewrite E. simpl. split; [reflexivity|]. split.
  - intros Hne. destruct (first_position_nonempty so Hne) as (e & He & Hall).
    exists e. split; [exact He|]. split.
    + symmetry. apply (Forall2_length _ _ _ Hall).
    + intros i s Hs.
      destruct (Forall2_lookup_l _ _ _ _ _ Hall Hs) as (v & Hv & Hhead).
      exact (eq_trans Hv (eq_sym Hhead)).
  - apply first_position_empty_sequence.
Qed.

(** The title side of the two-checkpoint model on two one-token
    sequences. *)
Lemma get_pooled_embedding_takes_position_0_witness :
  snd (get_pooled_embedding (Toy.ids [[1; 2]; [3]]) false Toy.two_towers)
  = add_call (call_at 2%positive Toy.title_encoder (Toy.ids [[1; 2]; [3]])
                Toy.two_towers) Toy.two_towers /\
  exists e,
    fst (get_pooled_embedding (Toy.ids [[1; 2]; [3]]) false Toy.two_towers) = Ok e /\
    length e = 2%nat /\
    forall i s, [[[2; 0; 0]; [0; 2; 0]]; [[2; 2; 0]]] !! i = Some s -> e !! i = head s.
Proof.
  assert (T := get_pooled_embedding_takes_position_0 2%positive Toy.title_encoder
                 (Toy.ids [[1; 2]; [3]]) false Toy.two_towers
                 [[[2; 0; 0]; [0; 2; 0]]; [[2; 2; 0]]] []).
  destruct T as (Hw & Hok & _); try (vm_compute; reflexivity).
  split; [exact Hw|]. apply Hok. repeat constructor; discriminate.
Defined.

(** ** The initialisation hook leaves the weights alone *)

(** [Layer.parameters()]: the parameters of a layer and of everything
    below it, in traversal order. *)
Fixpoint parameters {R} (layer : Layer R) : list R :=
  match layer with
  | LayerNorm _ p => p
  | Sublayers _ p cs => p ++ concat (map parameters cs)
  end.

Section HookFacts.
Context {R : Type}.

Lemma map_ext_Forall {A B} (f g : A -> B) (l : list A) :
  Forall (fun a => f a = g a) l -> map f l = map g l.
Proof. induction 1 as [|a l E _ IH]; simpl; [reflexivity|]. rewrite E, IH. reflexivity. Qed.

Lemma init_weights_parameters (layer : Layer R) :
  parameters (Layer_apply init_weights layer) = parameters layer.
Proof.
  induction layer as [e p|k p cs IH] using Layer_tree_ind; simpl; [reflexivity|].
  rewrite map_map. f_equal. f_equal. apply map_ext_Forall, IH.
Qed.

Lemma init_weights_count (layer : Layer R) :
  length (sublayers (Layer_apply init_weights layer)) = length (sublayers layer).
Proof.
  induction layer as [e p|k p cs IH] using Layer_tree_ind; simpl; [reflexivity|].
  f_equal. rewrite map_map.
  induction IH as [|c cs E _ IHcs]; simpl; [reflexivity|].
  rewrite !length_app, E, IHcs. reflexivity.
Qed.

Lemma init_weights_twice (layer : Layer R) :
  Layer_apply init_weights (Layer_apply init_weights layer)
  = Layer_apply init_weights layer.
Proof.
  induction layer as [e p|k p cs IH] using Layer_tree_ind; simpl; [reflexivity|].
  f_equal. rewrite map_map. apply map_ext_Forall, IH.
Qed.
End HookFacts.

(** Two module trees that differ at most in the epsilon of their
    normalisation layers: the same kinds of layers, with the same
    parameters, in the same places. *)
#[warnings="-register-all"]
Inductive same_but_epsilon {R} : Layer R -> Layer R -> Prop :=
| same_LayerNorm e e' p :
    same_but_epsilon (LayerNorm e p) (LayerNorm e' p)
| same_Sublayers k p cs cs' :
    Forall2 same_but_epsilon cs cs' ->
    same_but_epsilon (Sublayers k p cs) (Sublayers k p cs').

Lemma init_weights_same_but_epsilon {R} (layer : Layer R) :
  same_but_epsilon layer (Layer_apply init_weights layer).
Proof.
  induction layer as [e p|k p cs IH] using Layer_tree_ind; simpl.
  - constructor.
  - constructor. induction IH as [|c cs Hc _ IHcs]; simpl; constructor; assumption.
Qed.

Lemma init_weights_fixed {R} (layer : Layer R) :
  layernorm_eps_all eps_1e_5 layer -> Layer_apply init_weights layer = layer.
Proof.
  induction layer as [e p|k p cs IH] using Layer_tree_ind; intros Hall; simpl.
  - rewrite (Hall e p); [reflexivity|]. left. reflexivity.
  - f_equal. rewrite <- (map_id cs) at 2. apply map_agree.
    rewrite Forall_forall in IH. apply Forall_forall. intros c Hc.
    apply (IH c Hc). intros e' p' Hin. apply (Hall e' p').
    simpl. right. apply in_concat. exists (sublayers c). split; [|exact Hin].
    apply in_map_iff. exists c. split; [reflexivity|].
    apply list_elem_of_In. exact Hc.
Qed.

(** X2.  The initialisation hook touches the epsilon of [LayerNorm]
    layers and nothing else: the tree of the new [ErnieEncoder] is the
    backbone's tree up to those epsilons, with the same layers, of the
    same kinds, holding the same parameters, in the same places.  So the
    parameters and the number of sublayers are the backbone's, running
    the construction again on its own result changes nothing, and a
    backbone whose [LayerNorm] layers already have epsilon [1e-5] comes
    out as it went in. *)
Theorem init_weights_keeps_the_weights {R : Type} (backbone : Layer R) :
  same_but_epsilon backbone (ernie (ErnieEncoder___init__ backbone)) /\
  parameters (ernie (ErnieEncoder___init__ backbone)) = parameters backbone /\
  length (sublayers (ernie (ErnieEncoder___init__ backbone)))
  = length (sublayers backbone) /\
  ErnieEncoder___init__ (ernie (ErnieEncoder___init__ backbone))
  = ErnieEncoder___init__ backbone /\
  (layernorm_eps_all eps_1e_5 backbone ->
   ernie (ErnieEncoder___init__ backbone) = backbone).
Proof.
  split; [apply init_weights_same_but_epsilon|].
  split; [apply init_weights_parameters|].
  split; [apply init_weights_count|]. split.
  - unfold ErnieEncoder___init__. simpl. rewrite init_weights_twice. reflexivity.
  - apply init_weights_fixed.
Qed.

(** A backbone that already carries epsilon [1e-5]. *)
Lemma init_weights_keeps_the_weights_witness :
  ernie (ErnieEncoder___init__
           (Sublayers "ErnieModel" [1; 2]
              [LayerNorm eps_1e_5 [3]; Sublayers "Linear" [4] []]))
  = Sublayers "ErnieModel" [1; 2]
      [LayerNorm eps_1e_5 [3]; Sublayers "Linear" [4] []].
Proof.
  apply (proj2 (proj2 (proj2 (proj2
           (init_weights_keeps_the_weights
              (Sublayers "ErnieModel" [1; 2]
                 [LayerNorm eps_1e_5 [3]; Sublayers "Linear" [4] []])))))).
  intros e p Hin. simpl in Hin.
  destruct Hin as [[=]|[[= <- _]|[[=]|[]]]]. reflexivity.
Defined.

(** ** The constructor and its checkpoints *)

Section ConstructorFacts.
Context {R : Type} `{Scalar R} `{Framework R}.

(** The outcome of the constructor, read off the checkpoints it loads. *)
Definition construction_outcome (q : string) (t : option string) (share : bool)
  : result unit :=
  rbind (load_pretrained q) (fun _ =>
    if share then Ok tt
    else match t with
         | None => Ok tt
         | Some name => rbind (load_pretrained name) (fun _ => Ok tt)
         end).

Lemma ErnieDualEncoder___init___outcome q t (share : bool) d (ucb : bool) (w0 : world R) :
  fst (ErnieDualEncoder___init__ q t share d ucb w0) = construction_outcome q t share.
Proof.
  unfold ErnieDualEncoder___init__, construction_outcome, Layer___init__,
    from_pretrained, bind, setattr, getattr, ret.
  cbn. destruct (load_pretrained q) as [bq|e]; [|reflexivity]. cbn.
  destruct share; cbn.
  - rewrite lookup_insert_eq. reflexivity.
  - destruct t as [tn|]; cbn; [|reflexivity].
    destruct (load_pretrained tn); reflexivity.
Qed.

Lemma ErnieDualEncoder___init___shared q t t' d (ucb : bool) (w0 : world R) :
  ErnieDualEncoder___init__ q t true d ucb w0
  = ErnieDualEncoder___init__ q t' true d ucb w0.
Proof. reflexivity. Qed.

Lemma fresh_not_allocated (h : gmap loc (ErnieEncoder R)) l enc :
  h !! l = Some enc -> l <> fresh (dom h).
Proof.
  intros Hl ->. apply (is_fresh (dom h)). apply elem_of_dom. eauto.
Qed.

Lemma ErnieDualEncoder___init___keeps_heap q t (share : bool) d (ucb : bool)
    (w0 : world R) l enc :
  heap w0 !! l = Some enc ->
  heap (snd (ErnieDualEncoder___init__ q t share d ucb w0)) !! l = Some enc.
Proof.
  intros Hl.
  pose proof (fresh_not_allocated _ _ _ Hl) as N1.
  unfold ErnieDualEncoder___init__, Layer___init__, from_pretrained,
    bind, setattr, getattr, ret.
  cbn. destruct (load_pretrained q) as [bq|e]; [|exact Hl]. cbn.
  assert (Hl1 : <[fresh (dom (heap w0)) := ErnieEncoder___init__ bq]> (heap w0) !! l
                = Some enc).
  { rewrite lookup_insert_ne by congruence. exact Hl. }
  destruct share; cbn.
  - rewrite lookup_insert_eq. cbn. exact Hl1.
  - destruct t as [tn|]; cbn; [|exact Hl1].
    destruct (load_pretrained tn) as [bt|e]; cbn; [|exact Hl1].
    pose proof (fresh_not_allocated _ _ _ Hl1) as N2.
    rewrite lookup_insert_ne by congruence. exact Hl1.
Qed.
End ConstructorFacts.

(** X3.  The constructor raises exactly when a checkpoint it needs fails
    to load, and then with the loader's error: it always needs the query
    checkpoint, and the title checkpoint only when parameters are not
    shared and a title model is named.  With [share_parameters=True] the
    title model name is not looked at.  Encoder objects that existed
    before are left as they were. *)
Theorem constructor_loads_what_it_needs {R : Type} `{Scalar R} `{Framework R} :
  forall q t (share : bool) d (ucb : bool) (w0 : world R),
    fst (ErnieDualEncoder___init__ q t share d ucb w0)
    = rbind (load_pretrained q) (fun _ =>
        if share then Ok tt
        else match t with
             | None => Ok tt
             | Some name => rbind (load_pretrained name) (fun _ => Ok tt)
             end) /\
    (forall t', ErnieDualEncoder___init__ q t true d ucb w0
                = ErnieDualEncoder___init__ q t' true d ucb w0) /\
    (forall l enc,
       heap w0 !! l = Some enc ->
       heap (snd (ErnieDualEncoder___init__ q t share d ucb w0)) !! l = Some enc).
Proof.
  intros q t share d ucb w0. split; [|split].
  - apply ErnieDualEncoder___init___outcome.
  - intros t'. apply ErnieDualEncoder___init___shared.
  - intros l enc. apply ErnieDualEncoder___init___keeps_heap.
Qed.

(** Building a second model next to the two-checkpoint one, with an
    unknown title model: the loader's error comes out, and the encoder at
    address 1 is still there. *)
Lemma constructor_loads_what_it_needs_witness :
  fst (ErnieDualEncoder___init__ "ernie-base-cn-query-encoder" (Some "no-such-model")
         false None false Toy.two_towers)
  = Raise (ExternalError "unknown model") /\
  heap (snd (ErnieDualEncoder___init__ "ernie-base-cn-query-encoder"
               (Some "no-such-model") false None false Toy.two_towers)) !! 1%positive
  = Some Toy.query_encoder.
Proof.
  destruct (constructor_loads_what_it_needs "ernie-base-cn-query-encoder"
              (Some "no-such-model") false None false Toy.two_towers)
    as (Hout & _ & Hkeep).
  split.
  - rewrite Hout. vm_compute. reflexivity.
  - apply Hkeep. vm_compute. reflexivity.
Defined.

(** X4.  With [share_parameters=False] and a title model named, the two
    towers are two objects, also when both names are the same
    checkpoint: replacing the title encoder's state leaves what the
    query side computes as it was, and the other way round. *)
Theorem separate_towers_are_separate_objects {R : Type} `{Scalar R} `{Framework R} :
  forall q tn d (ucb : bool) (w0 w : world R),
    ErnieDualEncoder___init__ q (Some tn) false d ucb w0 = (Ok tt, w) ->
    exists lq lt eq et,
      lq <> lt /\
      self_attrs w !! "query_ernie" = Some (VEncoder lq) /\
      self_attrs w !! "title_ernie" = Some (VEncoder lt) /\
      heap w !! lq = Some eq /\
      heap w !! lt = Some et /\
      (forall (enc' : ErnieEncoder R) (x : enc_input),
         fst (get_pooled_embedding x true
                (mkWorld (self_attrs w) (<[lt := enc']> (heap w))
                         (grad_enabled w) (calls w)))
         = fst (get_pooled_embedding x true w)) /\
      (forall (enc' : ErnieEncoder R) (x : enc_input),
         fst (get_pooled_embedding x false
                (mkWorld (self_attrs w) (<[lq := enc']> (heap w))
                         (grad_enabled w) (calls w)))
         = fst (get_pooled_embedding x false w)).
Proof.
  intros q tn d ucb w0 w Hinit.
  apply ErnieDualEncoder___init___inv in Hinit.
  destruct Hinit as (bq & _ & Hq & Hhq & _ & _ & _ & _ & Htitle).
  destruct Htitle as [([=] & _)|[(_ & [=] & _)|(_ & tn' & bt & lt & _ & _ & Hne & Ht & Hht)]].
  exists (fresh (dom (heap w0))), lt, (ErnieEncoder___init__ bq), (ErnieEncoder___init__ bt).
  repeat split; try assumption; try congruence.
  - intros enc' x.
    rewrite (get_pooled_embedding_query _ (ErnieEncoder___init__ bq) x w Hq Hhq).
    rewrite (get_pooled_embedding_query (fresh (dom (heap w0)))
               (ErnieEncoder___init__ bq) x (mkWorld _ _ _ _)); [reflexivity|exact Hq|].
    simpl. rewrite lookup_insert_ne by exact Hne. exact Hhq.
  - intros enc' x.
    rewrite (get_pooled_embedding_title _ (ErnieEncoder___init__ bt) x w Ht Hht).
    rewrite (get_pooled_embedding_title lt
               (ErnieEncoder___init__ bt) x (mkWorld _ _ _ _)); [reflexivity|exact Ht|].
    simpl. rewrite lookup_insert_ne by congruence. exact Hht.
Qed.

(** The same checkpoint named for both towers. *)
Lemma separate_towers_are_separate_objects_witness :
  exists lq lt eq et,
    lq <> lt /\
    self_attrs (snd (ErnieDualEncoder___init__ "ernie-base-cn-query-encoder"
                       (Some "ernie-base-cn-query-encoder") false None false Toy.blank))
      !! "query_ernie" = Some (VEncoder lq) /\
    self_attrs (snd (ErnieDualEncoder___init__ "ernie-base-cn-query-encoder"
                       (Some "ernie-base-cn-query-encoder") false None false Toy.blank))
      !! "title_ernie" = Some (VEncoder lt) /\
    heap (snd (ErnieDualEncoder___init__ "ernie-base-cn-query-encoder"
                 (Some "ernie-base-cn-query-encoder") false None false Toy.blank))
      !! lq = Some eq /\
    heap (snd (ErnieDualEncoder___init__ "ernie-base-cn-query-encoder"
                 (Some "ernie-base-cn-query-encoder") false None false Toy.blank))
      !! lt = Some et.
Proof.
  destruct (separate_towers_are_separate_objects
              "ernie-base-cn-query-encoder" "ernie-base-cn-query-encoder"
              None false Toy.blank
              (snd (ErnieDualEncoder___init__ "ernie-base-cn-query-encoder"
                      (Some "ernie-base-cn-query-encoder") false None false Toy.blank)))
    as (lq & lt & eq & et & Hne & Hq & Ht & Hlq & Hlt & _).
  { vm_compute. reflexivity. }
  exists lq, lt, eq, et. repeat split; assumption.
Defined.

(** ** What the methods read and what they write *)

Section FrameFacts.
Context {R : Type} `{Scalar R} `{Framework R}.
Implicit Types (w : world R) (x : enc_input).

(** A method adds at most [n] encoder calls to the log, each on one of
    the inputs [xs], and changes nothing else in the world. *)
Definition logs_at_most (n : nat) (xs : list enc_input) (w w' : world R) : Prop :=
  exists cs, w' = add_calls cs w /\ (length cs <= n)%nat /\
             Forall (fun c => In (call_input c) xs) cs.

Lemma logs_none n xs w : logs_at_most n xs w w.
Proof.
  exists []. rewrite add_calls_nil. repeat split; [simpl; lia|constructor].
Qed.

Lemma logs_weaken n m xs ys w w' :
  (n <= m)%nat -> (forall x, In x xs -> In x ys) ->
  logs_at_most n xs w w' -> logs_at_most m ys w w'.
Proof.
  intros Hn Hxs (cs & -> & Hlen & Hin). exists cs.
  repeat split; [lia|]. eapply Forall_impl; [exact Hin|]. simpl. auto.
Qed.

Lemma logs_then n m xs w1 w2 w3 :
  logs_at_most n xs w1 w2 -> logs_at_most m xs w2 w3 ->
  logs_at_most (n + m) xs w1 w3.
Proof.
  intros (cs1 & -> & L1 & I1) (cs2 & -> & L2 & I2). exists (cs1 ++ cs2).
  repeat split.
  - unfold add_calls. simpl. rewrite app_assoc. reflexivity.
  - rewrite length_app. lia.
  - apply Forall_app. split; assumption.
Qed.

Lemma call_value_writes v x w :
  logs_at_most 1 [x] w (snd (call_value v x w)).
Proof.
  destruct v; simpl; try apply logs_none.
  unfold ErnieEncoder_forward. destruct (heap w !! l) as [enc|]; [|apply logs_none].
  exists [mkCall l x (training enc) (grad_enabled w)].
  repeat split; [simpl; lia|]. constructor; [left; reflexivity|constructor].
Qed.

Lemma get_pooled_embedding_writes x b w :
  logs_at_most 1 [x] w (snd (get_pooled_embedding x b w)).
Proof.
  unfold get_pooled_embedding, bind, getattr, ret, raise.
  destruct b; simpl.
  - destruct (self_attrs w !! "query_ernie") as [v|] eqn:E; simpl;
      [|apply logs_none].
    destruct (is_not_None v); simpl; [|apply logs_none].
    rewrite E. apply call_value_writes.
  - destruct (self_attrs w !! "title_ernie") as [v|] eqn:E; simpl;
      [|apply logs_none].
    destruct (truthy v); simpl; [|apply logs_none].
    rewrite E. apply call_value_writes.
Qed.

Ltac pooled_write x b w w' L xs :=
  let E := fresh "E" in
  destruct (get_pooled_embedding x b w) as [[?|?] w'] eqn:E;
  pose proof (get_pooled_embedding_writes x b w) as L;
  rewrite E in L; simpl in L;
  (apply (logs_weaken 1 1 [x] xs) in L; [|lia|simpl; tauto]).

Ltac case_matches :=
  repeat match goal with
         | |- context [match ?s with _ => _ end] =>
             lazymatch s with
             | context [match _ with _ => _ end] => fail
             | _ => destruct s; simpl
             end
         end.

Lemma cosine_sim_writes query title w :
  logs_at_most 2 [query; title] w (snd (cosine_sim query title w)).
Proof.
  unfold cosine_sim, bind.
  pooled_write query true w w1 L1 [query; title].
  2:{ apply (logs_weaken 1 2 [query; title] [query; title]); auto. }
  pooled_write title false w1 w2 L2 [query; title].
  2:{ exact (logs_then 1 1 _ _ _ _ L1 L2). }
  pose proof (logs_then 1 1 _ _ _ _ L1 L2) as L.
  unfold lift, ret. case_matches; exact L.
Qed.

Lemma forward_writes query pos_title neg_title (is_prediction : bool) w :
  logs_at_most 3 [query; pos_title; neg_title] w
    (snd (forward query pos_title neg_title is_prediction w)).
Proof.
  unfold forward, bind.
  pooled_write query true w w1 L1 [query; pos_title; neg_title].
  2:{ apply (logs_weaken 1 3 [query; pos_title; neg_title]
               [query; pos_title; neg_title]); auto. }
  pooled_write pos_title true w1 w2 L2 [query; pos_title; neg_title].
  2:{ apply (logs_weaken 2 3 [query; pos_title; neg_title]
               [query; pos_title; neg_title]); auto.
      exact (logs_then 1 1 _ _ _ _ L1 L2). }
  pose proof (logs_then 1 1 _ _ _ _ L1 L2) as L12.
  pooled_write neg_title true w2 w3 L3 [query; pos_title; neg_title].
  2:{ exact (logs_then 2 1 _ _ _ _ L12 L3). }
  pose proof (logs_then 2 1 _ _ _ _ L12 L3) as L.
  unfold lift, ret, getattr. case_matches; exact L.
Qed.
End FrameFacts.

(** X5.  [get_pooled_embedding], [cosine_sim] and [forward] write nothing
    but the call log: no attribute of the model, no encoder object (its
    weights, its mode) and not the gradient switch.  They call an encoder
    at most once, twice and three times, and only on the inputs they
    were given. *)
Theorem methods_only_call_encoders {R : Type} `{Scalar R} `{Framework R} :
  forall (w : world R),
    (forall x b,
       exists cs, snd (get_pooled_embedding x b w) = add_calls cs w /\
                  (length cs <= 1)%nat /\
                  Forall (fun c => In (call_input c) [x]) cs) /\
    (forall query title,
       exists cs, snd (cosine_sim query title w) = add_calls cs w /\
                  (length cs <= 2)%nat /\
                  Forall (fun c => In (call_input c) [query; title]) cs) /\
    (forall query pos_title neg_title is_prediction,
       exists cs, snd (forward query pos_title neg_title is_prediction w)
                  = add_calls cs w /\
                  (length cs <= 3)%nat /\
                  Forall (fun c => In (call_input c) [query; pos_title; neg_title]) cs).
Proof.
  intros w. split; [|split].
  - intros x b. apply get_pooled_embedding_writes.
  - intros query title. apply cosine_sim_writes.
  - intros query pos_title neg_title is_prediction. apply forward_writes.
Qed.

Section UnreadFacts.
Context {R : Type} `{Scalar R} `{Framework R}.
Implicit Types (w : world R) (x : enc_input) (k : string).

(** The world with attribute [k] of the model set to [v].  The dictionary
    holds the data attributes of the instance; its methods are looked up
    on the class, so [k] stands for a data attribute. *)
Definition overwrite k (v : value) w : world R :=
  mkWorld (<[k := v]> (self_attrs w)) (heap w) (grad_enabled w) (calls w).

(** The computation [m] does not depend on attribute [k]: whatever [k]
    is set to beforehand, [m] gives the same result and the same world,
    up to that attribute. *)
Definition unread_by {A} k (m : PyM.M R A) : Prop :=
  forall v w, m (overwrite k v w) = (fst (m w), overwrite k v (snd (m w))).

Lemma unread_ret {A} k (a : A) : unread_by k (ret a).
Proof. intros v w. reflexivity. Qed.

Lemma unread_raise {A} k e : unread_by k (@raise R A e).
Proof. intros v w. reflexivity. Qed.

Lemma unread_lift {A} k (r : result A) : unread_by k (lift r).
Proof. intros v w. reflexivity. Qed.

Lemma unread_getattr k k' : k <> k' -> unread_by k (getattr k').
Proof.
  intros Ne v w. unfold getattr, overwrite. simpl.
  rewrite lookup_insert_ne by exact Ne.
  destruct (self_attrs w !! k'); reflexivity.
Qed.

Lemma unread_bind {A B} k (m : PyM.M R A) (f : A -> PyM.M R B) :
  unread_by k m -> (forall a, unread_by k (f a)) -> unread_by k (bind m f).
Proof.
  intros Hm Hf v w. unfold bind. rewrite Hm.
  destruct (m w) as [[a|e] w1]; simpl; [apply Hf|reflexivity].
Qed.

Lemma unread_call_value k f x : unread_by k (call_value f x).
Proof.
  intros v w. destruct f; try reflexivity. simpl.
  unfold ErnieEncoder_forward. simpl.
  destruct (heap w !! l); reflexivity.
Qed.

Lemma unread_get_pooled_embedding k x (is_query : bool) :
  k <> side_attr is_query -> unread_by k (get_pooled_embedding x is_query).
Proof.
  intros Ne. unfold get_pooled_embedding.
  destruct is_query; simpl in Ne |- *.
  - apply unread_bind; [|intros a].
    + apply unread_bind; [apply unread_getattr, Ne|intros; apply unread_ret].
    + apply unread_bind; [|intros b].
      * destruct a; apply unread_ret.
      * destruct b; [|apply unread_raise].
        apply unread_bind; [apply unread_getattr, Ne|intros; apply unread_call_value].
  - apply unread_bind; [apply unread_ret|intros a].
    apply unread_bind; [|intros b].
    + destruct a; [apply unread_ret|].
      apply unread_bind; [apply unread_getattr, Ne|intros; apply unread_ret].
    + destruct b; [|apply unread_raise].
      apply unread_bind; [apply unread_getattr, Ne|intros; apply unread_call_value].
Qed.

Lemma unread_cosine_sim k query title :
  k <> "query_ernie" -> k <> "title_ernie" -> unread_by k (cosine_sim query title).
Proof.
  intros Nq Nt. unfold cosine_sim.
  apply unread_bind; [apply (unread_get_pooled_embedding k query true Nq)|intros qe].
  apply unread_bind; [apply (unread_get_pooled_embedding k title false Nt)|intros te].
  apply unread_bind; [apply unread_lift|intros; apply unread_ret].
Qed.

Lemma unread_forward k query pos_title neg_title (is_prediction : bool) :
  k <> "query_ernie" -> k <> "use_cross_batch" -> k <> "rank" ->
  unread_by k (forward query pos_title neg_title is_prediction).
Proof.
  intros Nq Nu Nr. unfold forward.
  apply unread_bind; [apply (unread_get_pooled_embedding k query true Nq)|intros qe].
  apply unread_bind; [apply (unread_get_pooled_embedding k pos_title true Nq)|intros pe].
  apply unread_bind; [apply (unread_get_pooled_embedding k neg_title true Nq)|intros ne].
  apply unread_bind; [apply unread_lift|intros all].
  destruct is_prediction.
  - apply unread_bind; [apply unread_lift|intros; apply unread_ret].
  - apply unread_bind; [apply unread_getattr, Nu|intros ucb].
    apply unread_bind; [|intros cands].
    { destruct (truthy ucb); [|apply unread_ret].
      apply unread_bind; [apply unread_lift|intros; apply unread_lift]. }
    apply unread_bind; [apply unread_lift|intros logits].
    apply unread_bind; [apply unread_getattr, Nr|intros r1].
    apply unread_bind; [apply unread_lift|intros r1'].
    apply unread_bind; [apply unread_getattr, Nr|intros r2].
    apply unread_bind; [apply unread_lift|intros r2'].
    apply unread_bind; [apply unread_lift|intros labels].
    apply unread_bind; [apply unread_lift|intros acc].
    apply unread_bind; [apply unread_lift|intros loss].
    apply unread_ret.
Qed.
End UnreadFacts.

(** The data attributes a method leaves unread, among those the
    constructor assigns and [rank]. *)
Definition unread_by_forward : list string := ["title_ernie"; "dropout"].
Definition unread_by_cosine_sim : list string := ["use_cross_batch"; "rank"; "dropout"].
Definition unread_by_get_pooled_embedding (is_query : bool) : list string :=
  [side_attr (negb is_query); "use_cross_batch"; "rank"; "dropout"].

(** X6.  What [title_ernie] and [dropout] hold makes no difference to
    [forward]: with either of them set to anything beforehand, the
    result and the state it leaves are the same, up to that attribute.
    In the same way [cosine_sim] does not depend on [use_cross_batch],
    [rank] or [dropout], and [get_pooled_embedding] not on these three
    nor on the encoder of the other side.  The dropout layer the
    constructor builds is used by none of them. *)
Theorem methods_read_few_attributes {R : Type} `{Scalar R} `{Framework R} :
  (forall k, In k unread_by_forward ->
     forall query pos_title neg_title is_prediction v (w : world R),
       forward query pos_title neg_title is_prediction (overwrite k v w)
       = (fst (forward query pos_title neg_title is_prediction w),
          overwrite k v (snd (forward query pos_title neg_title is_prediction w)))) /\
  (forall k, In k unread_by_cosine_sim ->
     forall query title v (w : world R),
       cosine_sim query title (overwrite k v w)
       = (fst (cosine_sim query title w),
          overwrite k v (snd (cosine_sim query title w)))) /\
  (forall is_query k, In k (unread_by_get_pooled_embedding is_query) ->
     forall x v (w : world R),
       get_pooled_embedding x is_query (overwrite k v w)
       = (fst (get_pooled_embedding x is_query w),
          overwrite k v (snd (get_pooled_embedding x is_query w)))).
Proof.
  split; [|split].
  - intros k Hk query pos_title neg_title is_prediction v w.
    apply (unread_forward k query pos_title neg_title is_prediction);
      simpl in Hk; destruct Hk as [<-|[<-|[]]]; discriminate.
  - intros k Hk query title v w.
    apply (unread_cosine_sim k query title);
      simpl in Hk; destruct Hk as [<-|[<-|[<-|[]]]]; discriminate.
  - intros is_query k Hk x v w.
    apply (unread_get_pooled_embedding k x is_query).
    destruct is_query; simpl in Hk;
      destruct Hk as [<-|[<-|[<-|[<-|[]]]]]; discriminate.
Qed.

(** Taking the title encoder away from the two-checkpoint model, or
    changing its dropout rate, makes no difference to a prediction
    call. *)
Lemma methods_read_few_attributes_witness :
  fst (forward (Toy.ids [[1]; [3]]) (Toy.ids [[2]; [3]]) (Toy.ids [[0]; [1]]) true
         (overwrite "title_ernie" VNone Toy.two_towers))
  = fst (forward (Toy.ids [[1]; [3]]) (Toy.ids [[2]; [3]]) (Toy.ids [[0]; [1]]) true
           Toy.two_towers) /\
  fst (cosine_sim (Toy.ids [[1]; [3]]) (Toy.ids [[2]; [3]])
         (overwrite "dropout" (VDropout (Qmake 1 2)) Toy.two_towers))
  = fst (cosine_sim (Toy.ids [[1]; [3]]) (Toy.ids [[2]; [3]]) Toy.two_towers).
Proof.
  destruct (@methods_read_few_attributes Z _ _) as (Hf & Hc & _).
  split.
  - rewrite (Hf "title_ernie"); [reflexivity|]. left. reflexivity.
  - rewrite (Hc "dropout"); [reflexivity|]. right. right. left. reflexivity.
Defined.

(** X7.  [cosine_sim] encodes the query before it turns to the title:
    on a model without a title encoder the query encoder is called, and
    then the assertion of the title side fails; a failure of the query
    call comes first. *)
Theorem cosine_sim_without_title_encoder {R : Type} `{Scalar R} `{Framework R} :
  forall lq eq (query title : enc_input) (w : world R),
    self_attrs w !! "query_ernie" = Some (VEncoder lq) ->
    heap w !! lq = Some eq ->
    self_attrs w !! "title_ernie" = Some VNone ->
    (forall qs,
       pooled_by (ernie eq) (ctx_of eq w) query = Ok qs ->
       cosine_sim query title w
       = (Raise (AssertionError is_query_message), after_call lq eq query w)) /\
    (forall ex,
       pooled_by (ernie eq) (ctx_of eq w) query = Raise ex ->
       cosine_sim query title w = (Raise ex, after_call lq eq query w)).
Proof.
  intros lq eq query title w Hq Hl Ht. split.
  - intros qs Eq. unfold cosine_sim.
    rewrite (bind_query_side lq eq) by assumption. rewrite Eq.
    unfold bind. rewrite get_pooled_embedding_absent; [reflexivity|].
    right. split; [reflexivity|exact Ht].
  - intros ex Eq. unfold cosine_sim.
    rewrite (bind_query_side lq eq) by assumption. rewrite Eq. reflexivity.
Qed.

(** The query-only model. *)
Lemma cosine_sim_without_title_encoder_witness :
  cosine_sim (Toy.ids [[1]; [3]]) (Toy.ids [[2]; [3]]) Toy.query_only
  = (Raise (AssertionError is_query_message),
     after_call 1%positive Toy.query_encoder (Toy.ids [[1]; [3]]) Toy.query_only).
Proof.
  apply (proj1 (cosine_sim_without_title_encoder 1%positive Toy.query_encoder
                  (Toy.ids [[1]; [3]]) (Toy.ids [[2]; [3]]) Toy.query_only
                  ltac:(vm_compute; reflexivity) ltac:(vm_compute; reflexivity)
                  ltac:(vm_compute; reflexivity))
           [[1; 0; 0]; [1; 1; 0]]).
  vm_compute. reflexivity.
Defined.

(** ** The generator when a batch fails, and what it leaves behind *)

Section GeneratorFacts.
Context {R : Type} `{Scalar R} `{Framework R}.
Implicit Types (w : world R) (l : loc).

Lemma corpus_runs_lookup (backbone : Layer R) (rest : list batch) :
  forall n0 i,
    corpus_runs backbone n0 rest !! i
    = (fun b => pooled_by backbone (mkCtx false false (n0 + i)) (input_of_batch b))
        <$> rest !! i.
Proof.
  induction rest as [|b rest IH]; intros n0 [|i]; simpl; try reflexivity.
  - rewrite Nat.add_0_r. reflexivity.
  - rewrite IH. replace (S n0 + i)%nat with (n0 + S i)%nat by lia. reflexivity.
Qed.

Lemma serving_add_calls l backbone cs w :
  serving l backbone w -> serving l backbone (add_calls cs w).
Proof. intros Sv. exact Sv. Qed.

(** As long as the backbone goes through, the suspended generator hands
    out one embedding per request. *)
Lemma take_items_prefix l backbone :
  forall n rest saved w es tail,
    serving l backbone w ->
    corpus_runs backbone (length (calls w)) rest = map Ok es ++ tail ->
    (n <= length es)%nat ->
    take_items n (GenSuspended saved rest) w
    = (Ok (take n es), GenSuspended saved (drop n rest),
       add_calls (map (served l) (take n rest)) w).
Proof.
  induction n as [|n IH]; intros rest saved w es tail Sv Hruns Hn.
  - simpl. rewrite add_calls_nil. reflexivity.
  - destruct es as [|e es]; [simpl in Hn; lia|].
    destruct rest as [|b rest]; [discriminate Hruns|].
    simpl in Hruns. injection Hruns as He Hrest.
    cbn [take_items gen_next]. rewrite (loop_turn_serving l backbone) by exact Sv.
    rewrite He.
    assert (Hlen : length (calls (add_call (served l b) w)) = S (length (calls w))).
    { simpl. rewrite length_app. simpl. lia. }
    rewrite (IH rest saved (add_call (served l b) w) es tail
               (serving_add_call _ _ _ _ Sv)); [|rewrite Hlen; exact Hrest|simpl in Hn; lia].
    rewrite add_calls_cons. reflexivity.
Qed.

(** The batch after the last good one fails: the error comes out of the
    next request, the failing call has been made, the generator is
    finished and the gradient switch is put back. *)
Lemma gen_next_failing_batch l backbone rest saved w es ex tail :
  serving l backbone w ->
  corpus_runs backbone (length (calls w)) rest = map Ok es ++ Raise ex :: tail ->
  exists w' w'',
    take_items (length es) (GenSuspended saved rest) w
    = (Ok es, GenSuspended saved (drop (length es) rest), w') /\
    gen_next (GenSuspended saved (drop (length es) rest)) w'
    = (Raise ex, GenFinished, w'') /\
    calls w'' = calls w ++ map (served l) (take (S (length es)) rest) /\
    grad_enabled w'' = saved /\
    self_attrs w'' = self_attrs w /\ heap w'' = heap w.
Proof.
  intros Sv Hruns.
  pose proof (corpus_runs_lookup backbone rest (length (calls w)) (length es)) as Hk.
  rewrite Hruns in Hk.
  rewrite lookup_app_r in Hk by (rewrite length_map; lia).
  rewrite length_map, Nat.sub_diag in Hk. simpl in Hk.
  destruct (rest !! length es) as [b|] eqn:Hb; [|discriminate Hk].
  simpl in Hk. injection Hk as Hfail.
  rewrite (take_items_prefix l backbone (length es) rest saved w es _ Sv Hruns)
    by lia.
  rewrite firstn_all.
  eexists _, _. split; [reflexivity|].
  rewrite (drop_S _ _ _ Hb). cbn [gen_next].
  rewrite (loop_turn_serving l backbone) by (apply serving_add_calls, Sv).
  assert (Hlen : length (calls (add_calls (map (served l) (take (length es) rest)) w))
                 = (length (calls w) + length es)%nat).
  { simpl. rewrite length_app, length_map, length_take_le; [reflexivity|].
    apply Nat.lt_le_incl. apply (lookup_lt_Some _ _ _ Hb). }
  rewrite Hlen, <- Hfail.
  split; [reflexivity|]. simpl.
  rewrite (take_S_r _ _ _ Hb), map_app, <- app_assoc.
  repeat split; reflexivity.
Qed.

(** From the first request on, whatever the backbone does, the model's
    attributes and encoder objects are those [eval()] left, and the
    gradient switch is off while the generator is suspended and back at
    its old value once it has finished. *)
Lemma take_items_suspended_frame :
  forall n saved rest w,
    grad_enabled w = false ->
    self_attrs (snd (take_items n (GenSuspended saved rest) w)) = self_attrs w /\
    heap (snd (take_items n (GenSuspended saved rest) w)) = heap w /\
    match snd (fst (take_items n (GenSuspended saved rest) w)) with
    | GenSuspended s _ =>
        s = saved /\ grad_enabled (snd (take_items n (GenSuspended saved rest) w)) = false
    | GenFinished =>
        grad_enabled (snd (take_items n (GenSuspended saved rest) w)) = saved
    | GenCreated _ => False
    end.
Proof.
  induction n as [|n IH]; intros saved rest w Hg.
  - simpl. auto.
  - cbn [take_items gen_next]. destruct rest as [|b rest]; [simpl; auto|].
    unfold loop_turn.
    pose proof (get_pooled_embedding_logs (input_of_batch b) true w) as L.
    destruct (get_pooled_embedding (input_of_batch b) true w) as [[e|ex] w1];
      simpl in L; destruct L as (La & Lh & Lg & _).
    + specialize (IH saved rest w1 (eq_trans Lg Hg)).
      destruct (take_items n (GenSuspended saved rest) w1) as [[[es|ex] g'] w'];
        simpl in *; destruct IH as (Ia & Ih & Ig);
        (split; [congruence|split; [congruence|exact Ig]]).
    + simpl. auto.
Qed.
End GeneratorFacts.

(** X8.  When the backbone goes through on the first [k] batches and
    raises on the next one, a consumer gets the [k] embeddings, in
    order, and its next request raises the backbone's error.  By then the
    encoder has been called on the first [k + 1] batches, the generator
    is finished (a further request finds it exhausted) and the gradient
    switch is back at the value it had before the first request. *)
Theorem get_semantic_embedding_failing_batch {R : Type} `{Scalar R} `{Framework R} :
  forall l enc (data_loader : list batch) (w : world R) (es : list (tensor2 R)) ex tail,
    self_attrs w !! "query_ernie" = Some (VEncoder l) ->
    heap w !! l = Some enc ->
    corpus_runs (ernie enc) (length (calls w)) data_loader
    = map Ok es ++ Raise ex :: tail ->
    exists g' w' w'',
      take_items (length es) (get_semantic_embedding data_loader) w = (Ok es, g', w') /\
      gen_next g' w' = (Raise ex, GenFinished, w'') /\
      calls w'' = calls w ++ map (served l) (take (S (length es)) data_loader) /\
      grad_enabled w'' = grad_enabled w /\
      gen_next GenFinished w'' = (Ok None, GenFinished, w'').
Proof.
  intros l enc data_loader w es ex tail Hq Hl Hruns.
  pose proof (started_serving l enc w Hq Hl) as Sv.
  destruct (gen_next_failing_batch l (ernie enc) data_loader (grad_enabled w)
              (started w) es ex tail Sv Hruns)
    as (w' & w'' & Htake & Hnext & Hcalls & Hgrad & _ & _).
  destruct es as [|e es].
  - simpl in Htake. injection Htake as <-.
    exists (GenCreated data_loader), w, w''.
    split; [reflexivity|]. split; [exact Hnext|].
    split; [exact Hcalls|]. split; [exact Hgrad|reflexivity].
  - exists (GenSuspended (grad_enabled w) (drop (length (e :: es)) data_loader)), w', w''.
    split; [exact Htake|]. split; [exact Hnext|].
    split; [exact Hcalls|]. split; [exact Hgrad|reflexivity].
Qed.

(** Three batches, the second with the unknown token 7. *)
Lemma get_semantic_embedding_failing_batch_witness :
  exists g' w' w'',
    take_items 1 (get_semantic_embedding
                    [([[1]], [[0]]); ([[7]], [[0]]); ([[3]], [[0]])]) Toy.two_towers
    = (Ok [[[1; 0; 0]]], g', w') /\
    gen_next g' w' = (Raise IndexError, GenFinished, w'') /\
    calls w'' = [served 1%positive ([[1]], [[0]]); served 1%positive ([[7]], [[0]])] /\
    grad_enabled w'' = true /\
    gen_next GenFinished w'' = (Ok None, GenFinished, w'').
Proof.
  apply (get_semantic_embedding_failing_batch 1%positive Toy.query_encoder
           [([[1]], [[0]]); ([[7]], [[0]]); ([[3]], [[0]])] Toy.two_towers
           [[[1; 0; 0]]] IndexError [Ok [[1; 1; 0]]]);
    vm_compute; reflexivity.
Defined.

(** The world and the generator after a consumer has asked for [n]
    items. *)
Definition after_items {R} `{Scalar R} `{Framework R}
    (n : nat) (data_loader : list batch) (w : world R) : generator * world R :=
  (snd (fst (take_items n (get_semantic_embedding data_loader) w)),
   snd (take_items n (get_semantic_embedding data_loader) w)).

(** X9.  From the first request on, and whatever the backbone does, the
    model is in evaluation mode and stays there: its [training] attribute
    is false and so is the mode of every encoder it holds, also after the
    generator has finished; no other attribute changes.  The gradient
    switch is off for as long as the generator is suspended between two
    items, and back at its old value once the generator has finished. *)
Theorem get_semantic_embedding_leaves_eval_mode {R : Type} `{Scalar R} `{Framework R} :
  forall (data_loader : list batch) (w : world R) (n : nat),
    (1 <= n)%nat ->
    self_attrs (snd (after_items n data_loader w)) !! "training" = Some (VBool false) /\
    (forall k, k <> "training" ->
       self_attrs (snd (after_items n data_loader w)) !! k = self_attrs w !! k) /\
    (forall name l enc,
       self_attrs w !! name = Some (VEncoder l) ->
       heap w !! l = Some enc ->
       heap (snd (after_items n data_loader w)) !! l
       = Some (mkErnieEncoder (ernie enc) false)) /\
    match fst (after_items n data_loader w) with
    | GenSuspended _ _ => grad_enabled (snd (after_items n data_loader w)) = false
    | GenFinished => grad_enabled (snd (after_items n data_loader w)) = grad_enabled w
    | GenCreated _ => False
    end.
Proof.
  intros data_loader w [|n] Hn; [lia|].
  unfold after_items, get_semantic_embedding. rewrite take_items_created.
  destruct (take_items_suspended_frame (S n) (grad_enabled w) data_loader (started w))
    as (Ha & Hh & Hg); [reflexivity|].
  cbn [fst snd]. rewrite Ha, Hh. repeat split.
  - apply lookup_insert_eq.
  - intros k Nk. apply (Layer_eval_attr k w Nk).
  - intros name l enc Hname Hl. exact (Layer_eval_held name l enc w Hname Hl).
  - destruct (snd (fst (take_items (S n) (GenSuspended (grad_enabled w) data_loader)
                          (started w)))); tauto.
Qed.

(** One item out of two asked for: both towers are in evaluation mode
    and gradients are off. *)
Lemma get_semantic_embedding_leaves_eval_mode_witness :
  self_attrs (snd (after_items 1 [([[1]], [[0]]); ([[3]], [[0]])] Toy.two_towers))
    !! "training" = Some (VBool false) /\
  heap (snd (after_items 1 [([[1]], [[0]]); ([[3]], [[0]])] Toy.two_towers)) !! 2%positive
  = Some (mkErnieEncoder (ernie Toy.title_encoder) false) /\
  grad_enabled (snd (after_items 1 [([[1]], [[0]]); ([[3]], [[0]])] Toy.two_towers))
  = false.
Proof.
  destruct (get_semantic_embedding_leaves_eval_mode
              [([[1]], [[0]]); ([[3]], [[0]])] Toy.two_towers 1%nat)
    as (Ht & _ & Hheld & Hg); [lia|].
  split; [exact Ht|]. split.
  - apply (Hheld "title_ernie"); vm_compute; reflexivity.
  - exact Hg.
Defined.

(** ** Scores and labels of the training branch *)

Section ScoreFacts.
Context {R : Type} `{Scalar R}.

Lemma paddle_matmul_T_rows (x y logits : tensor2 R) :
  paddle_matmul_T x y = Ok logits ->
  logits = map (fun u => map (dot_product u) y) x.
Proof.
  unfold paddle_matmul_T. destruct (rows_agree (x ++ y)); [|discriminate].
  intros [= <-]. reflexivity.
Qed.

Lemma map_lookup_Some {A B} (f : A -> B) (xs : list A) i a :
  xs !! i = Some a -> map f xs !! i = Some (f a).
Proof.
  revert i. induction xs as [|b xs IH]; intros [|i] Hi; try discriminate Hi.
  - injection Hi as ->. reflexivity.
  - simpl. apply IH. exact Hi.
Qed.

Lemma paddle_matmul_T_lookup (x y logits : tensor2 R) i u :
  paddle_matmul_T x y = Ok logits ->
  x !! i = Some u ->
  logits !! i = Some (map (dot_product u) y).
Proof.
  intros Hm Hu. rewrite (paddle_matmul_T_rows _ _ _ Hm).
  exact (map_lookup_Some (fun u0 => map (dot_product u0) y) x i u Hu).
Qed.

Lemma score_lookup (u : tensor1 R) (y : tensor2 R) j v :
  y !! j = Some v -> map (dot_product u) y !! j = Some (dot_product u v).
Proof. apply map_lookup_Some. Qed.

(** In a concatenation whose first [r] blocks have [n] rows each, row
    [i] of block [r] sits at position [r * n + i]. *)
Lemma concat_lookup_block {A} (n : nat) :
  forall (r : nat) (tl : list (list A)) (blk : list A) (i : nat) (a : A),
    tl !! r = Some blk ->
    (forall j t, (j < r)%nat -> tl !! j = Some t -> length t = n) ->
    blk !! i = Some a ->
    concat tl !! (r * n + i)%nat = Some a.
Proof.
  induction r as [|r IH]; intros tl blk i a Hr Hlen Ha.
  - destruct tl as [|t tl]; [discriminate Hr|].
    simpl in Hr. injection Hr as ->. simpl.
    apply lookup_app_l_Some. exact Ha.
  - destruct tl as [|t tl]; [discriminate Hr|].
    simpl in Hr. simpl concat.
    assert (Ht : length t = n) by (apply (Hlen 0%nat t); [lia|reflexivity]).
    rewrite lookup_app_r by lia.
    replace (S r * n + i - length t)%nat with (r * n + i)%nat by lia.
    apply (IH tl blk i a Hr); [|exact Ha].
    intros j t' Hj Ht'. apply (Hlen (S j) t'); [lia|exact Ht'].
Qed.
End ScoreFacts.

Section TrainingFacts.
Context {R : Type} `{Scalar R} `{Framework R}.

(** The training branch with an integer [rank], once the scores are
    there: accuracy and loss are asked for the scores and the label
    column. *)
Lemma forward_training_scores_and_labels l enc (query pos_title neg_title : enc_input)
    (w : world R) (qe pe ne : tensor2 R) ucb (cands logits : tensor2 R) (r : Z) :
  self_attrs w !! "query_ernie" = Some (VEncoder l) ->
  heap w !! l = Some enc ->
  pooled_by (ernie enc) (ctx_query enc w) query = Ok qe ->
  pooled_by (ernie enc) (ctx_pos l enc query w) pos_title = Ok pe ->
  pooled_by (ernie enc) (ctx_neg l enc query pos_title w) neg_title = Ok ne ->
  rows_agree (pe ++ ne) = true ->
  self_attrs w !! "use_cross_batch" = Some ucb ->
  candidates ucb (pe ++ ne) = Ok cands ->
  paddle_matmul_T qe cands = Ok logits ->
  self_attrs w !! "rank" = Some (VInt r) ->
  fits_int64 (Z.of_nat (length qe) * r * 2) = true ->
  fits_int64 (Z.of_nat (length qe) * (r * 2 + 1)) = true ->
  fst (forward query pos_title neg_title false w)
  = rbind (metric_accuracy logits (label_column (length qe) r)) (fun accuracy =>
    rbind (cross_entropy logits (label_column (length qe) r)) (fun loss =>
    Ok (<["loss" := T0 loss]> (<["accuracy" := T0 accuracy]> ∅)))).
Proof.
  intros Hq Hl Eq Ep En Hc Hu Hcands Hm Hr Hlo Hhi.
  rewrite (forward_training_run l enc query pos_title neg_title w qe pe ne
             ucb cands logits) by assumption.
  simpl. unfold training_outputs. rewrite Hr. simpl.
  rewrite (paddle_arange_ok _ _ Hlo Hhi). simpl.
  replace (Z.of_nat (length qe) * (r * 2 + 1) - Z.of_nat (length qe) * r * 2)
    with (Z.of_nat (length qe)) by lia.
  rewrite Nat2Z.id. reflexivity.
Qed.

(** Where the local candidates sit among all candidates: at the front
    without cross-batch sharing; with it, behind the [2 * B] candidates of
    each lower rank, when the gathering is in rank order. *)
Definition gathered_in_rank_order (ucb : value) (local : tensor2 R) (B r : nat) : Prop :=
  (truthy ucb = false /\ r = 0%nat) \/
  (truthy ucb = true /\
   exists tensor_list,
     all_gather local = Ok tensor_list /\
     tensor_list !! r = Some local /\
     forall j t, (j < r)%nat -> tensor_list !! j = Some t -> length t = (2 * B)%nat).

Lemma own_candidate_position ucb (pe ne cands : tensor2 R) (B r i : nat) v :
  candidates ucb (pe ++ ne) = Ok cands ->
  gathered_in_rank_order ucb (pe ++ ne) B r ->
  pe !! i = Some v ->
  cands !! (2 * B * r + i)%nat = Some v.
Proof.
  unfold candidates. intros Hcands Hplace Hv.
  assert (Hloc : (pe ++ ne) !! i = Some v) by (apply lookup_app_l_Some; exact Hv).
  destruct Hplace as [(Hu & ->)|(Hu & tl & Hg & Hr & Hlen)]; rewrite Hu in Hcands.
  - injection Hcands as <-. rewrite Nat.mul_0_r. exact Hloc.
  - rewrite Hg in Hcands. simpl in Hcands. unfold paddle_concat in Hcands.
    destruct tl as [|t tl]; [discriminate Hcands|].
    destruct (rows_agree (concat (t :: tl))); [|discriminate Hcands].
    injection Hcands as <-.
    replace (2 * B * r + i)%nat with (r * (2 * B) + i)%nat by lia.
    exact (concat_lookup_block (2 * B) r (t :: tl) (pe ++ ne) i v Hr Hlen Hloc).
Qed.
End TrainingFacts.

(** X10.  In training mode with an integer [rank] of [r], when the
    local candidates sit where the labels expect them (at the front
    without cross-batch sharing on rank 0; with sharing, at position [r]
    of a gathering whose lower ranks contribute [2 * B] candidates each),
    the label of query [i] is the column of its own positive title in
    the score matrix: the score found there is the dot product of the
    embedding of query [i] and the embedding of positive title [i]. *)
Theorem labels_select_own_positive {R : Type} `{Scalar R} `{Framework R} :
  forall l enc (query pos_title neg_title : enc_input) (w : world R)
         (qe pe ne : tensor2 R) ucb (cands logits : tensor2 R) (r : nat),
    self_attrs w !! "query_ernie" = Some (VEncoder l) ->
    heap w !! l = Some enc ->
    pooled_by (ernie enc) (ctx_query enc w) query = Ok qe ->
    pooled_by (ernie enc) (ctx_pos l enc query w) pos_title = Ok pe ->
    pooled_by (ernie enc) (ctx_neg l enc query pos_title w) neg_title = Ok ne ->
    rows_agree (pe ++ ne) = true ->
    self_attrs w !! "use_cross_batch" = Some ucb ->
    candidates ucb (pe ++ ne) = Ok cands ->
    paddle_matmul_T qe cands = Ok logits ->
    self_attrs w !! "rank" = Some (VInt (Z.of_nat r)) ->
    fits_int64 (Z.of_nat (length qe) * Z.of_nat r * 2) = true ->
    fits_int64 (Z.of_nat (length qe) * (Z.of_nat r * 2 + 1)) = true ->
    gathered_in_rank_order ucb (pe ++ ne) (length qe) r ->
    fst (forward query pos_title neg_title false w)
    = rbind (metric_accuracy logits (label_column (length qe) (Z.of_nat r)))
        (fun accuracy =>
      rbind (cross_entropy logits (label_column (length qe) (Z.of_nat r)))
        (fun loss =>
      Ok (<["loss" := T0 loss]> (<["accuracy" := T0 accuracy]> ∅)))) /\
    (forall i u v,
       qe !! i = Some u -> pe !! i = Some v ->
       label_column (length qe) (Z.of_nat r) !! i
       = Some [Z.of_nat (2 * length qe * r + i)] /\
       exists row,
         logits !! i = Some row /\
         row !! (2 * length qe * r + i)%nat = Some (dot_product u v)).
Proof.
  intros l enc query pos_title neg_title w qe pe ne ucb cands logits r
    Hq Hl Eq Ep En Hc Hu Hcands Hm Hr Hlo Hhi Hplace.
  split.
  - apply (forward_training_scores_and_labels l enc query pos_title neg_title w
             qe pe ne ucb cands logits (Z.of_nat r)); assumption.
  - intros i u v Hu' Hv. split.
    + rewrite label_column_lookup by (apply (lookup_lt_Some _ _ _ Hu')).
      do 2 f_equal. lia.
    + exists (map (dot_product u) cands). split.
      * exact (paddle_matmul_T_lookup qe cands logits i u Hm Hu').
      * apply score_lookup.
        exact (own_candidate_position ucb pe ne cands (length qe) r i v
                 Hcands Hplace Hv).
Qed.

(** Rank 1 of two processes with the same batch: the labels 4 and 5
    point at the scores of the two queries against their own positive
    titles. *)
Lemma labels_select_own_positive_witness :
  label_column 2 1 !! 1%nat = Some [Z.of_nat (2 * 2 * 1 + 1)] /\
  exists row,
    [[0; 1; 0; 1; 0; 1; 0; 1]; [1; 2; 0; 1; 1; 2; 0; 1]] !! 1%nat = Some row /\
    row !! (2 * 2 * 1 + 1)%nat = Some (dot_product [1; 1; 0] [1; 1; 0]).
Proof.
  assert (T := labels_select_own_positive 1%positive Toy.query_encoder
                 (Toy.ids [[1]; [3]]) (Toy.ids [[2]; [3]]) (Toy.ids [[0]; [1]])
                 Toy.cross_batch_rank1
                 [[1; 0; 0]; [1; 1; 0]] [[0; 1; 0]; [1; 1; 0]] [[0; 0; 0]; [1; 0; 0]]
                 (VBool true)
                 [[0; 1; 0]; [1; 1; 0]; [0; 0; 0]; [1; 0; 0];
                  [0; 1; 0]; [1; 1; 0]; [0; 0; 0]; [1; 0; 0]]
                 [[0; 1; 0; 1; 0; 1; 0; 1]; [1; 2; 0; 1; 1; 2; 0; 1]] 1%nat).
  destruct T as (_ & Hsel); try (vm_compute; reflexivity).
  - right. split; [reflexivity|].
    exists [[[0; 1; 0]; [1; 1; 0]; [0; 0; 0]; [1; 0; 0]];
            [[0; 1; 0]; [1; 1; 0]; [0; 0; 0]; [1; 0; 0]]].
    split; [reflexivity|]. split; [reflexivity|].
    intros [|j] t Hj Ht; [|lia]. injection Ht as <-. reflexivity.
  - apply (Hsel 1%nat [1; 1; 0] [1; 1; 0]); reflexivity.
Defined.

(** X11.  The labels are offset by [rank] whether or not cross-batch
    sharing is on.  With sharing off the candidates are the [2 * B] local
    ones, so on every rank from 1 up, with [B] positives and [B]
    negatives, each label handed to the accuracy and the loss lies beyond
    the last column of the score matrix. *)
Theorem labels_without_cross_batch {R : Type} `{Scalar R} `{Framework R} :
  forall l enc (query pos_title neg_title : enc_input) (w : world R)
         (qe pe ne : tensor2 R) ucb (logits : tensor2 R) (r : nat),
    self_attrs w !! "query_ernie" = Some (VEncoder l) ->
    heap w !! l = Some enc ->
    pooled_by (ernie enc) (ctx_query enc w) query = Ok qe ->
    pooled_by (ernie enc) (ctx_pos l enc query w) pos_title = Ok pe ->
    pooled_by (ernie enc) (ctx_neg l enc query pos_title w) neg_title = Ok ne ->
    rows_agree (pe ++ ne) = true ->
    self_attrs w !! "use_cross_batch" = Some ucb ->
    truthy ucb = false ->
    paddle_matmul_T qe (pe ++ ne) = Ok logits ->
    self_attrs w !! "rank" = Some (VInt (Z.of_nat r)) ->
    fits_int64 (Z.of_nat (length qe) * Z.of_nat r * 2) = true ->
    fits_int64 (Z.of_nat (length qe) * (Z.of_nat r * 2 + 1)) = true ->
    length pe = length qe ->
    length ne = length qe ->
    (1 <= r)%nat ->
    fst (forward query pos_title neg_title false w)
    = rbind (metric_accuracy logits (label_column (length qe) (Z.of_nat r)))
        (fun accuracy =>
      rbind (cross_entropy logits (label_column (length qe) (Z.of_nat r)))
        (fun loss =>
      Ok (<["loss" := T0 loss]> (<["accuracy" := T0 accuracy]> ∅)))) /\
    (forall i row,
       (i < length qe)%nat ->
       logits !! i = Some row ->
       length row = (2 * length qe)%nat /\
       label_column (length qe) (Z.of_nat r) !! i
       = Some [Z.of_nat (2 * length qe * r + i)] /\
       (2 * length qe <= 2 * length qe * r + i)%nat /\
       row !! (2 * length qe * r + i)%nat = None).
Proof.
  intros l enc query pos_title neg_title w qe pe ne ucb logits r
    Hq Hl Eq Ep En Hc Hu Hoff Hm Hr Hlo Hhi Hpe Hne Hr1.
  split.
  - apply (forward_training_scores_and_labels l enc query pos_title neg_title w
             qe pe ne ucb (pe ++ ne) logits (Z.of_nat r)); try assumption.
    unfold candidates. rewrite Hoff. reflexivity.
  - intros i row Hi Hrow.
    destruct (lookup_lt_is_Some_2 qe i Hi) as [u Hu'].
    rewrite (paddle_matmul_T_lookup qe (pe ++ ne) logits i u Hm Hu') in Hrow.
    injection Hrow as <-.
    assert (Hlen : length (map (dot_product u) (pe ++ ne)) = (2 * length qe)%nat).
    { rewrite length_map, length_app, Hpe, Hne. lia. }
    split; [exact Hlen|]. split.
    + rewrite label_column_lookup by exact Hi. do 2 f_equal. lia.
    + assert (Hge : (2 * length qe <= 2 * length qe * r + i)%nat) by nia.
      split; [exact Hge|].
      apply lookup_ge_None. rewrite Hlen. exact Hge.
Qed.

(** The two-checkpoint model without cross-batch sharing, told it is
    rank 1. *)
Lemma labels_without_cross_batch_witness :
  length [0; 1; 0; 1] = (2 * 2)%nat /\
  label_column 2 1 !! 0%nat = Some [Z.of_nat (2 * 2 * 1 + 0)] /\
  (2 * 2 <= 2 * 2 * 1 + 0)%nat /\
  [0; 1; 0; 1] !! (2 * 2 * 1 + 0)%nat = None.
Proof.
  assert (T := labels_without_cross_batch 1%positive Toy.query_encoder
                 (Toy.ids [[1]; [3]]) (Toy.ids [[2]; [3]]) (Toy.ids [[0]; [1]])
                 (snd (setattr "rank" (VInt 1) Toy.two_towers))
                 [[1; 0; 0]; [1; 1; 0]] [[0; 1; 0]; [1; 1; 0]] [[0; 0; 0]; [1; 0; 0]]
                 (VBool false)
                 [[0; 1; 0; 1]; [1; 2; 0; 1]] 1%nat).
  destruct T as (_ & Hout); try (vm_compute; reflexivity).
  apply (Hout 0%nat [0; 1; 0; 1]); [simpl; lia|reflexivity].
Defined.

(** X12.  In training mode with an integer [rank], when accuracy and
    loss come back, [forward] returns the dictionary with exactly the
    keys [loss] and [accuracy], and none of the prediction keys.  The
    accuracy is asked for first: its failure is the failure of
    [forward], and otherwise a failure of the loss is. *)
Theorem forward_training_outputs {R : Type} `{Scalar R} `{Framework R} :
  forall l enc (query pos_title neg_title : enc_input) (w : world R)
         (qe pe ne : tensor2 R) ucb (cands logits : tensor2 R) (r : Z),
    self_attrs w !! "query_ernie" = Some (VEncoder l) ->
    heap w !! l = Some enc ->
    pooled_by (ernie enc) (ctx_query enc w) query = Ok qe ->
    pooled_by (ernie enc) (ctx_pos l enc query w) pos_title = Ok pe ->
    pooled_by (ernie enc) (ctx_neg l enc query pos_title w) neg_title = Ok ne ->
    rows_agree (pe ++ ne) = true ->
    self_attrs w !! "use_cross_batch" = Some ucb ->
    candidates ucb (pe ++ ne) = Ok cands ->
    paddle_matmul_T qe cands = Ok logits ->
    self_attrs w !! "rank" = Some (VInt r) ->
    fits_int64 (Z.of_nat (length qe) * r * 2) = true ->
    fits_int64 (Z.of_nat (length qe) * (r * 2 + 1)) = true ->
    (forall accuracy loss,
       metric_accuracy logits (label_column (length qe) r) = Ok accuracy ->
       cross_entropy logits (label_column (length qe) r) = Ok loss ->
       exists outputs,
         fst (forward query pos_title neg_title false w) = Ok outputs /\
         outputs = <["loss" := T0 loss]> (<["accuracy" := T0 accuracy]> ∅) /\
         dom outputs = {["loss"; "accuracy"]} /\
         outputs !! "probs" = None /\
         outputs !! "q_rep" = None /\
         outputs !! "p_rep" = None) /\
    (forall ex,
       metric_accuracy logits (label_column (length qe) r) = Raise ex ->
       fst (forward query pos_title neg_title false w) = Raise ex) /\
    (forall accuracy ex,
       metric_accuracy logits (label_column (length qe) r) = Ok accuracy ->
       cross_entropy logits (label_column (length qe) r) = Raise ex ->
       fst (forward query pos_title neg_title false w) = Raise ex).
Proof.
  intros l enc query pos_title neg_title w qe pe ne ucb cands logits r
    Hq Hl Eq Ep En Hc Hu Hcands Hm Hr Hlo Hhi.
  pose proof (forward_training_scores_and_labels l enc query pos_title neg_title w
                qe pe ne ucb cands logits r Hq Hl Eq Ep En Hc Hu Hcands Hm Hr Hlo Hhi)
    as F.
  split; [|split].
  - intros accuracy loss Ha Hloss. eexists. split.
    + rewrite F, Ha. simpl. rewrite Hloss. reflexivity.
    + repeat split; try (simplify_map_eq; reflexivity).
  - intros ex Ha. rewrite F, Ha. reflexivity.
  - intros accuracy ex Ha Hloss. rewrite F, Ha. simpl. rewrite Hloss. reflexivity.
Qed.

(** The cross-batch model on rank 1. *)
Lemma forward_training_outputs_witness :
  exists outputs,
    fst (forward (Toy.ids [[1]; [3]]) (Toy.ids [[2]; [3]]) (Toy.ids [[0]; [1]])
           false Toy.cross_batch_rank1) = Ok outputs /\
    outputs = <["loss" := T0 0]> (<["accuracy" := T0 2]> ∅) /\
    dom outputs = {["loss"; "accuracy"]} /\
    outputs !! "probs" = None /\
    outputs !! "q_rep" = None /\
    outputs !! "p_rep" = None.
Proof.
  assert (T := forward_training_outputs 1%positive Toy.query_encoder
                 (Toy.ids [[1]; [3]]) (Toy.ids [[2]; [3]]) (Toy.ids [[0]; [1]])
                 Toy.cross_batch_rank1
                 [[1; 0; 0]; [1; 1; 0]] [[0; 1; 0]; [1; 1; 0]] [[0; 0; 0]; [1; 0; 0]]
                 (VBool true)
                 [[0; 1; 0]; [1; 1; 0]; [0; 0; 0]; [1; 0; 0];
                  [0; 1; 0]; [1; 1; 0]; [0; 0; 0]; [1; 0; 0]]
                 [[0; 1; 0; 1; 0; 1; 0; 1]; [1; 2; 0; 1; 1; 2; 0; 1]] 1).
  destruct T as (Hok & _ & _); try (vm_compute; reflexivity).
  apply (Hok 2 0); reflexivity.
Defined.

(** ** One title against many queries *)

Section BroadcastFacts.
Context {R : Type} `{Scalar R}.

Lemma rmapM_mul_row_same (qs : tensor2 R) (t : tensor1 R) :
  Forall (fun q => length q = length t) qs ->
  rmapM (fun u => mul_row u t) qs = Ok (map (fun q => zip_with smul q t) qs).
Proof.
  induction 1 as [|q qs E _ IH]; simpl; [reflexivity|].
  rewrite (mul_row_same _ _ E), IH. reflexivity.
Qed.

Lemma tensor_mul_one_title (qs : tensor2 R) (t : tensor1 R) :
  Forall (fun q => length q = length t) qs ->
  tensor_mul qs [t] = Ok (map (fun q => zip_with smul q t) qs).
Proof.
  intros Hall. unfold tensor_mul.
  destruct qs as [|q1 [|q2 qs]].
  - reflexivity.
  - simpl. inversion Hall as [|? ? E _]; subst.
    rewrite (mul_row_same _ _ E). reflexivity.
  - change (length (q1 :: q2 :: qs) =? length [t])%nat with false.
    cbv iota. apply rmapM_mul_row_same, Hall.
Qed.
End BroadcastFacts.

(** X13.  [cosine_sim] of a batch of queries against a batch of one
    title: the product broadcasts the title, and the result has one
    entry per query, the raw dot product of that query's embedding with
    the embedding of the title. *)
Theorem cosine_sim_one_title {R : Type} `{Scalar R} `{Framework R} :
  forall lq eq lt et (query title : enc_input) (w : world R)
         (qs : tensor2 R) (t : tensor1 R),
    self_attrs w !! "query_ernie" = Some (VEncoder lq) ->
    heap w !! lq = Some eq ->
    self_attrs w !! "title_ernie" = Some (VEncoder lt) ->
    heap w !! lt = Some et ->
    pooled_by (ernie eq) (ctx_of eq w) query = Ok qs ->
    pooled_by (ernie et) (ctx_of et (after_call lq eq query w)) title = Ok [t] ->
    Forall (fun q => length q = length t) qs ->
    fst (cosine_sim query title w) = Ok (map (fun q => dot_product q t) qs).
Proof.
  intros lq eq lt et query title w qs t Hq Hlq Ht Hlt Eq Et Hall.
  unfold cosine_sim.
  rewrite (bind_query_side lq eq) by assumption. rewrite Eq.
  rewrite (bind_title_side lt et) by assumption. rewrite Et.
  rewrite bind_lift, (tensor_mul_one_title _ _ Hall). simpl.
  unfold paddle_sum_last. rewrite map_map. reflexivity.
Qed.

(** Three queries against the title token 3 on the shared model. *)
Lemma cosine_sim_one_title_witness :
  fst (cosine_sim (Toy.ids [[1]; [2]; [3]]) (Toy.ids [[3]]) Toy.shared)
  = Ok (map (fun q => dot_product q [1; 1; 0]) [[1; 0; 0]; [0; 1; 0]; [1; 1; 0]]).
Proof.
  apply (cosine_sim_one_title 1%positive Toy.query_encoder 1%positive Toy.query_encoder
           (Toy.ids [[1]; [2]; [3]]) (Toy.ids [[3]]) Toy.shared
           [[1; 0; 0]; [0; 1; 0]; [1; 1; 0]] [1; 1; 0]);
    try (vm_compute; reflexivity).
  repeat constructor.
Defined.
